(** * warp-journal: the resource-resolution pipeline of [warp_journal/util.py]

    A shallow embedding of the module's functions (game directory lookup,
    web-cache lookup, port allocation, fatal-error reporting) together with
    the properties the specification states about them.

    Python objects are modelled as follows.
    - [str] is [string] (a byte string; for UTF-8 text the byte-wise order
      used below coincides with Python's code-point order).
    - [pathlib.Path] is the tuple of its [parts], a [Path].
    - A value whose Python type matters at run time is a [value].
    - [os.environ] is a [gmap string string].
    - A file opened in text mode is the sequence of byte pieces the text
      layer reads, each decoded as a whole with the locale's codec.
    - Everything outside the process (file system, locale, sockets, HTTP,
      the GUI toolkit, the shell, the logging configuration) is read from a
      [World] or recorded as an [event].
    - A block of statements is a [comp]: the events it performed and the
      way it completed (normally, by [return], by [continue], or with an
      exception). *)

From Stdlib Require Import ZArith QArith Ascii String List Permutation Sorted Lia.
From stdpp Require Import base option list gmap strings pretty.

Local Open Scope Z_scope.
Set Warnings "-register-all,-clear-no-such-hyp".

(** ** Strings *)

Module Str.

Definition newline : ascii := ascii_of_nat 10.
Definition dquote : ascii := ascii_of_nat 34.

(** [c in s] for a one-character [c]. *)
Fixpoint contains (c : ascii) (s : string) : bool :=
  match s with
  | EmptyString => false
  | String x s' => if Ascii.eqb x c then true else contains c s'
  end.

(** [s.split(sep)] generalised to a class of separator characters: every
    separator ends a field, empty fields are kept. *)
Fixpoint split_by (f : ascii -> bool) (s : string) : list string :=
  match s with
  | EmptyString => [EmptyString]
  | String c s' =>
      if f c then EmptyString :: split_by f s'
      else match split_by f s' with
           | [] => [String c EmptyString]
           | x :: xs => String c x :: xs
           end
  end.

Definition split (sep : ascii) (s : string) : list string :=
  split_by (Ascii.eqb sep) s.

(** [sep.join(l)] *)
Fixpoint join (sep : string) (l : list string) : string :=
  match l with
  | [] => EmptyString
  | [x] => x
  | x :: xs => x +:+ sep +:+ join sep xs
  end.

Fixpoint starts_with (p s : string) : bool :=
  match p, s with
  | EmptyString, _ => true
  | String a p', String b s' => if Ascii.eqb a b then starts_with p' s' else false
  | String _ _, EmptyString => false
  end.

(** [str.__lt__]: lexicographic on the characters. *)
Definition lt (a b : string) : bool := String.ltb a b.

End Str.

(** [list.__lt__] on lists of strings: the first position where the two
    lists differ decides; a proper prefix is smaller. *)
Fixpoint list_lt (a b : list string) : bool :=
  match a, b with
  | [], [] => false
  | [], _ :: _ => true
  | _ :: _, [] => false
  | x :: a', y :: b' =>
      if String.eqb x y then list_lt a' b' else Str.lt x y
  end.

(** ** Text files *)

Module Text.

Definition cr : ascii := ascii_of_nat 13.

(** Universal newlines, the default of [open]: a carriage return, alone or
    followed by a newline, is read as one newline. *)
Fixpoint translate_newlines (s : string) : string :=
  match s with
  | EmptyString => EmptyString
  | String c s' =>
      if Ascii.eqb c cr then
        String Str.newline
          match s' with
          | String d s'' =>
              if Ascii.eqb d Str.newline then translate_newlines s''
              else translate_newlines s'
          | EmptyString => EmptyString
          end
      else String c (translate_newlines s')
  end.

(** The complete lines at the start of [s], each with its newline, and the
    unfinished line that follows them. *)
Fixpoint cut_lines (s : string) : list string * string :=
  match s with
  | EmptyString => ([], EmptyString)
  | String c s' =>
      let (lines, rest) := cut_lines s' in
      if Ascii.eqb c Str.newline then (String c EmptyString :: lines, rest)
      else match lines with
           | [] => ([], String c rest)
           | l :: lines' => (String c l :: lines', rest)
           end
  end.

(** Well-formed UTF-8: [need] continuation bytes are still due, the next
    of them between [lo] and [hi]. *)
Fixpoint utf_8_valid (need : nat) (lo hi : N) (s : string) : bool :=
  match s with
  | EmptyString => match need with O => true | S _ => false end
  | String c s' =>
      let b := N_of_ascii c in
      match need with
      | S k => (lo <=? b)%N && (b <=? hi)%N && utf_8_valid k 128 191 s'
      | O =>
          if (b <=? 127)%N then utf_8_valid 0 128 191 s'
          else if (194 <=? b)%N && (b <=? 223)%N then utf_8_valid 1 128 191 s'
          else if (b =? 224)%N then utf_8_valid 2 160 191 s'
          else if (b =? 237)%N then utf_8_valid 2 128 159 s'
          else if (225 <=? b)%N && (b <=? 239)%N then utf_8_valid 2 128 191 s'
          else if (b =? 240)%N then utf_8_valid 3 144 191 s'
          else if (241 <=? b)%N && (b <=? 243)%N then utf_8_valid 3 128 191 s'
          else if (b =? 244)%N then utf_8_valid 3 128 143 s'
          else false
      end
  end.

(** The strict codec of a UTF-8 locale.  Text is written here with the bytes
    that encode it, so bytes that decode do so to themselves. *)
Definition utf_8 (s : string) : option string :=
  if utf_8_valid 0 128 191 s then Some s else None.

End Text.

(** ** Exceptions *)

Inductive exn_class :=
| BaseException | SystemExit | Exception
| KeyError | TypeError | AttributeError | ValueError | JSONDecodeError
| UnicodeError | UnicodeDecodeError | RuntimeError | IndexError | ImportError | NameError | UnboundLocalError
| OSError | FileNotFoundError | FileExistsError | IsADirectoryError
| NotADirectoryError | PermissionError | TimeoutError | ConnectionError
| URLError | HTTPError | HTTPException | CalledProcessError.

Global Instance exn_class_eq_dec : EqDecision exn_class.
Proof. solve_decision. Defined.

(** The direct base class. *)
Definition base_class (c : exn_class) : option exn_class :=
  match c with
  | BaseException => None
  | SystemExit | Exception => Some BaseException
  | KeyError | TypeError | AttributeError | ValueError | RuntimeError
  | IndexError | ImportError | NameError | OSError | HTTPException
  | CalledProcessError => Some Exception
  | UnboundLocalError => Some NameError
  | JSONDecodeError | UnicodeError => Some ValueError
  | UnicodeDecodeError => Some UnicodeError
  | FileNotFoundError | FileExistsError | IsADirectoryError
  | NotADirectoryError | PermissionError | TimeoutError | ConnectionError
  | URLError => Some OSError
  | HTTPError => Some URLError
  end.

(** [issubclass c d]; the hierarchy above is five levels deep. *)
Fixpoint subclass_upto (n : nat) (c d : exn_class) : bool :=
  if decide (c = d) then true
  else match n with
       | O => false
       | S n' => match base_class c with
                 | Some b => subclass_upto n' b d
                 | None => false
                 end
       end.

Definition issubclass (c d : exn_class) : bool := subclass_upto 5 c d.

(** A raised exception: its class and, for [SystemExit], the exit status. *)
Record exn := Exn { exn_type : exn_class; exit_code : option Z }.

Definition raised (c : exn_class) : exn := Exn c None.

(** [except (c1, c2, ...)] *)
Definition caught_by (classes : list exn_class) (e : exn) : bool :=
  existsb (issubclass (exn_type e)) classes.

(** ** Paths and values *)

(** [PurePath.parts]; an absolute path starts with the component ["/"]. *)
Definition Path : Type := list string.

Inductive value :=
| VNone
| VBool (b : bool)
| VInt (n : Z)
| VStr (s : string)
| VPath (p : Path).

(** [bool(v)]: [Path] defines neither [__bool__] nor [__len__]. *)
Definition truthy (v : value) : bool :=
  match v with
  | VNone => false
  | VBool b => b
  | VInt n => negb (n =? 0)
  | VStr s => negb (String.eqb s EmptyString)
  | VPath _ => true
  end.

(** The document [json.load] builds. *)
Inductive json :=
| JNull
| JBool (b : bool)
| JNum (n : Z)
| JStr (s : string)
| JArr (items : list json)
| JObj (members : list (string * json)).

(** ** The world outside the process *)

Inductive kind := KFile | KDir.

Inductive level := DEBUG | INFO | ERROR.

Inductive event :=
| Log (lvl : level) (msg : string)
| Bind (host : string) (port : Z)
| UrlOpen (url : string) (timeout : Q)
| ErrorDialog (msg : string)
| Mkdir (p : Path)
| Shell (cmd : string)
| BasicConfig (filename : Path) (format : string) (lvl : level)
| AddHandler (stream : string) (format : string) (lvl : level).

Record World := {
  platform : string;                    (* sys.platform *)
  environ : gmap string string;         (* os.environ *)
  home : option string;                 (* what "~" expands to, if known *)
  kind_of : Path -> option kind;        (* what is at a path, if anything *)
  listdir : Path -> list string;        (* entry names, in the order listed *)
  chunks_of : Path -> list string;      (* a file's bytes, in the pieces read *)
  decode : string -> option string;     (* the locale's codec; [None]: the
                                           bytes do not decode *)
  json_of : Path -> option json;        (* parsed content; [None]: not JSON *)
  bind_fails : string -> Z -> bool;     (* does [bind((host, port))] raise? *)
  http_get : string -> option exn_class;(* [None]: a response arrived *)
  tkinter : bool;                       (* can [tkinter] be imported? *)
  shell_fails : string -> option exn_class
                                        (* [check_output(cmd, shell=True)] *)
}.

(** ** Statements and their completion *)

Inductive completion (A : Type) :=
| Normal (a : A)
| Return (v : value)
| Continue
| Raise (e : exn).
Arguments Normal {A} a.
Arguments Return {A} v.
Arguments Continue {A}.
Arguments Raise {A} e.

Definition comp (A : Type) : Type := list event * completion A.

Definition ret {A} (a : A) : comp A := ([], Normal a).
Definition emit (ev : event) : comp unit := ([ev], Normal tt).
Definition return_ {A} (v : value) : comp A := ([], Return v).
Definition continue_ {A} : comp A := ([], Continue).
Definition raise {A} (c : exn_class) : comp A := ([], Raise (raised c)).
Definition pass : comp unit := ret tt.

Definition after {A} (t : list event) (m : comp A) : comp A :=
  (t ++ m.1, m.2).

Definition bind {A B} (m : comp A) (k : A -> comp B) : comp B :=
  match m with
  | (t, Normal a) => after t (k a)
  | (t, Return v) => (t, Return v)
  | (t, Continue) => (t, Continue)
  | (t, Raise e) => (t, Raise e)
  end.

Declare Scope comp_scope.
Delimit Scope comp_scope with comp.
Notation "x <- m ;; k" := (bind m (fun x => k))
  (at level 100, m at next level, right associativity) : comp_scope.
Notation "m ;; k" := (bind m (fun _ => k))
  (at level 100, right associativity) : comp_scope.
Local Open Scope comp_scope.

(** [if c: body] *)
Definition when (c : bool) (body : comp unit) : comp unit :=
  if c then body else pass.

(** [try: body  except classes: handler] *)
Definition try_except {A} (body : comp A) (classes : list exn_class)
    (handler : comp A) : comp A :=
  match body with
  | (t, Raise e) => if caught_by classes e then after t handler else (t, Raise e)
  | other => other
  end.

(** [with cm as x: body].  The context managers of this module (sockets,
    HTTP responses, files) close their resource on exit and never swallow
    what the block did. *)
Definition with_ {A B} (cm : comp A) (body : A -> comp B) : comp B :=
  x <- cm ;; body x.

(** [for x in xs: body] *)
Fixpoint for_ {X} (xs : list X) (body : X -> comp unit) : comp unit :=
  match xs with
  | [] => pass
  | x :: rest =>
      match body x with
      | (t, Normal _) | (t, Continue) => after t (for_ rest body)
      | (t, Return v) => (t, Return v)
      | (t, Raise e) => (t, Raise e)
      end
  end.

(** Calling a function whose body is [body]: a [return] gives the call its
    value, falling off the end gives [None]. *)
Definition call (body : comp unit) : comp value :=
  match body with
  | (t, Normal _) | (t, Continue) => (t, Normal VNone)
  | (t, Return v) => (t, Normal v)
  | (t, Raise e) => (t, Raise e)
  end.

(** ** Library calls *)

Section Library.
Context (w : World).

(** The separators of the running platform's path flavour. *)
Definition is_sep (c : ascii) : bool :=
  Ascii.eqb c "/" || (String.eqb (platform w) "win32" && Ascii.eqb c "\").

Definition sep : string :=
  if String.eqb (platform w) "win32" then "\" else "/".

Definition real_component (x : string) : bool :=
  negb (String.eqb x "" || String.eqb x ".").

(** [Path(s)]: empty components and ["."] are dropped, a leading separator
    makes the path absolute.  Drive letters are ordinary components here. *)
Definition path_of (s : string) : Path :=
  let comps := List.filter real_component (Str.split_by is_sep s) in
  match s with
  | String c _ => if is_sep c then "/" :: comps else comps
  | EmptyString => comps
  end.

(** [p / s] for a string [s]: an absolute [s] replaces [p]. *)
Definition joinpath (p : Path) (s : string) : Path :=
  match path_of s with
  | "/" :: q => "/" :: q
  | q => p ++ q
  end.

(** [a / s] where [s] is a [str]; only a [Path] on the left defines it. *)
Definition truediv (a : value) (s : string) : comp Path :=
  match a with
  | VPath p => ret (joinpath p s)
  | _ => raise TypeError
  end.

(** [p.name] *)
Definition name (p : Path) : string :=
  match last p with
  | Some x => if (length p =? 1)%nat && String.eqb x "/" then "" else x
  | None => ""
  end.

(** [str(p)] *)
Definition path_str (p : Path) : string :=
  match p with
  | [] => "."
  | "/" :: q => sep +:+ Str.join sep q
  | _ => Str.join sep p
  end.

(** [str(v)], as an f-string or [+] uses it. *)
Definition str (v : value) : string :=
  match v with
  | VNone => "None"
  | VBool true => "True"
  | VBool false => "False"
  | VInt n => pretty n
  | VStr s => s
  | VPath p => path_str p
  end.

(** [p.expanduser()] *)
Definition expanduser (p : Path) : comp Path :=
  match p with
  | "~" :: rest =>
      match home w with
      | Some h => ret (path_of h ++ rest)
      | None => raise RuntimeError
      end
  | _ => ret p
  end.

(** [p.exists()], [p.is_dir()] *)
Definition exists_ (p : Path) : bool :=
  match kind_of w p with Some _ => true | None => false end.
Definition is_dir (p : Path) : bool :=
  match kind_of w p with Some KDir => true | _ => false end.
Definition is_file (p : Path) : bool :=
  match kind_of w p with Some KFile => true | _ => false end.

(** [p.iterdir()], consumed to the end. *)
Definition iterdir (p : Path) : comp (list Path) :=
  match kind_of w p with
  | None => raise FileNotFoundError
  | Some KFile => raise NotADirectoryError
  | Some KDir => ret (map (fun n => p ++ [n]) (listdir w p))
  end.

(** [p.open()]: the handle is the path it reads. *)
Definition open_ (p : Path) : comp Path :=
  match kind_of w p with
  | None => raise FileNotFoundError
  | Some KDir => raise IsADirectoryError
  | Some KFile => ret p
  end.

(** The lines of a file opened in text mode, as iterating over it yields
    them.  The text layer reads the file piece by piece, decodes a whole
    piece with the locale's codec, translates its line ends and cuts lines
    from the text in hand; it reads the next piece only when that text holds
    no complete line.  A piece that does not decode ends the iteration with
    [UnicodeDecodeError]; the lines cut from the pieces before it have been
    yielded by then, those of the failing piece have not. *)
Fixpoint read_lines (pending : string) (chunks : list string)
    : list string * option exn_class :=
  match chunks with
  | [] => (if String.eqb pending "" then [] else [pending], None)
  | chunk :: rest =>
      match decode w chunk with
      | None => ([], Some UnicodeDecodeError)
      | Some text =>
          let (lines, pending') :=
            Text.cut_lines (pending +:+ Text.translate_newlines text) in
          let (more, err) := read_lines pending' rest in
          (lines ++ more, err)
      end
  end.

Definition iter_lines (fp : Path) : list string * option exn_class :=
  read_lines "" (chunks_of w fp).

(** [for line in fp: body] *)
Definition for_lines (fp : Path) (body : string -> comp unit) : comp unit :=
  for_ (iter_lines fp).1 body ;;
  match (iter_lines fp).2 with
  | Some c => raise c
  | None => pass
  end.

(** [p.mkdir(parents=True, exist_ok=True)] *)
Definition mkdir (p : Path) : comp unit :=
  if existsb (fun i => is_file (take i p)) (seq 1 (length p - 1))
  then raise NotADirectoryError
  else match kind_of w p with
       | Some KFile => raise FileExistsError
       | Some KDir => pass
       | None => emit (Mkdir p)
       end.

(** [k in os.environ], [os.environ[k]] *)
Definition in_environ (k : string) : bool :=
  match environ w !! k with Some _ => true | None => false end.

Definition environ_get (k : string) : comp string :=
  match environ w !! k with
  | Some v => ret v
  | None => raise KeyError
  end.

(** [json.load(fp)] *)
Definition json_load (fp : Path) : comp json :=
  match json_of w fp with
  | Some j => ret j
  | None => raise JSONDecodeError
  end.

(** [j[k]] for a string [k]; of a repeated member the last one counts. *)
Definition getitem (j : json) (k : string) : comp json :=
  match j with
  | JObj members =>
      match List.find (fun m => String.eqb m.1 k) (rev members) with
      | Some m => ret m.2
      | None => raise KeyError
      end
  | _ => raise TypeError
  end.

(** [j[a][b][c]] *)
Definition getitem3 (j : json) (a b c : string) : comp json :=
  x <- getitem j a ;;
  y <- getitem x b ;;
  getitem y c.

(** [Path(j)] for a value out of a JSON document. *)
Definition Path_of_json (j : json) : comp Path :=
  match j with
  | JStr s => ret (path_of s)
  | _ => raise TypeError
  end.

(** [s.bind((host, port))] on a fresh TCP socket. *)
Definition sock_bind (host : string) (port : Z) : comp unit :=
  emit (Bind host port) ;;
  if bind_fails w host port then raise OSError else pass.

(** [urlopen(url, timeout=t)] *)
Definition urlopen (url : string) (t : Q) : comp unit :=
  emit (UrlOpen url t) ;;
  match http_get w url with
  | None => pass
  | Some c => raise c
  end.

(** [subprocess.check_output(cmd, shell=True)] *)
Definition check_output (cmd : string) : comp unit :=
  emit (Shell cmd) ;;
  match shell_fails w cmd with
  | None => pass
  | Some c => raise c
  end.

(** [sys.exit(n)] *)
Definition sys_exit {A} (n : Z) : comp A := ([], Raise (Exn SystemExit (Some n))).

(** [range(a, b)] *)
Definition range (a b : Z) : list Z :=
  map (fun i => a + Z.of_nat i) (seq 0 (Z.to_nat (b - a))).

(** [l[-1]] *)
Definition last_item {A} (l : list A) : comp A :=
  match last l with
  | Some x => ret x
  | None => raise IndexError
  end.

End Library.

(** [l.sort(key=key)] for keys that are lists of strings: a stable sort
    that compares with [<] only. *)
Fixpoint insert_by {A} (key : A -> list string) (x : A) (l : list A) : list A :=
  match l with
  | [] => [x]
  | y :: l' =>
      if list_lt (key y) (key x) then y :: insert_by key x l'
      else x :: y :: l'
  end.

Definition sort_by {A} (key : A -> list string) (l : list A) : list A :=
  foldr (insert_by key) [] l.

(** ** The regular expression of the log scan *)

(** The pattern has the shape [prefix(.+)suffix], where prefix and suffix
    consist of literal characters and of [.], which matches every character
    but a newline. *)
Module Re.

Inductive atom := Lit (c : ascii) | AnyChar.

Record regex := Regex { prefix : list atom; suffix : list atom }.

Definition atom_of (c : ascii) : atom :=
  if Ascii.eqb c "." then AnyChar else Lit c.

Fixpoint atoms (s : string) : list atom :=
  match s with
  | EmptyString => []
  | String c s' => atom_of c :: atoms s'
  end.

(** [re.compile(prefix + '(.+)' + suffix)] *)
Definition compile (prefix suffix : string) : regex :=
  Regex (atoms prefix) (atoms suffix).

Definition accepts (a : atom) (c : ascii) : bool :=
  match a with
  | Lit x => Ascii.eqb c x
  | AnyChar => negb (Ascii.eqb c Str.newline)
  end.

(** Match a run of atoms at the start of [s]; what follows the match. *)
Fixpoint match_atoms (p : list atom) (s : string) : option string :=
  match p, s with
  | [], _ => Some s
  | a :: p', String c s' => if accepts a c then match_atoms p' s' else None
  | _ :: _, EmptyString => None
  end.

(** The greedy group [(.+)] followed by [p], at the start of [s]: the
    longest run of non-newline characters after which [p] matches. *)
Fixpoint match_group (p : list atom) (s : string) : option string :=
  match s with
  | EmptyString => None
  | String c s' =>
      if accepts AnyChar c then
        match match_group p s' with
        | Some g => Some (String c g)
        | None =>
            match match_atoms p s' with
            | Some _ => Some (String c EmptyString)
            | None => None
            end
        end
      else None
  end.

(** The whole pattern at the start of [s]; the text of group 1. *)
Definition match_here (r : regex) (s : string) : option string :=
  match match_atoms (prefix r) s with
  | Some rest => match_group (suffix r) rest
  | None => None
  end.

(** [r.search(s)]: the leftmost position where the pattern matches; the
    result is [match.group(1)]. *)
Fixpoint search (r : regex) (s : string) : option string :=
  match match_here r s with
  | Some g => Some g
  | None =>
      match s with
      | EmptyString => None
      | String _ s' => search r s'
      end
  end.

End Re.

(** ** The functions of [util.py] *)

Section Util.
Context (w : World).

Definition show_error_dialog (message : string) : comp value :=
  call (
    try_except
      (if tkinter w then pass else raise ImportError)
      [ImportError]
      (return_ VNone) ;;
    emit (ErrorDialog message)).

Definition panic (message : string) : comp value :=
  call (
    emit (Log ERROR message) ;;
    show_error_dialog message ;;
    emit (Log INFO "Quitting") ;;
    sys_exit 1).

Definition get_data_path : comp value :=
  call (
    path <-
      (if String.eqb (platform w) "win32" then
         appdata <- environ_get w "APPDATA" ;;
         ret (Some (joinpath w (path_of w appdata) "warp-journal"))
       else if String.eqb (platform w) "linux" then
         if in_environ w "XDG_DATA_HOME" then
           xdg <- environ_get w "XDG_DATA_HOME" ;;
           ret (Some (joinpath w (path_of w xdg) "warp-journal"))
         else
           p <- expanduser w (path_of w "~/.local/share/warp-journal") ;;
           ret (Some p)
       else if String.eqb (platform w) "darwin" then
         if in_environ w "XDG_DATA_HOME" then
           xdg <- environ_get w "XDG_DATA_HOME" ;;
           ret (Some (joinpath w (path_of w xdg) "warp-journal"))
         else
           p <- expanduser w
                  (path_of w "~/Library/Application Support/warp-journal") ;;
           ret (Some p)
       else
         panic "Warp Journal is only designed to run on Windows or Linux-based systems." ;;
         ret None) ;;
    match path with
    | None => raise UnboundLocalError
    | Some path =>
        try_except (mkdir w path) [FileExistsError]
          (panic (path_str w path +:+ " already exists, but is a file.") ;;
           pass) ;;
        return_ (VPath path)
    end).

Definition get_game_path_windows : comp value :=
  call (
    when (negb (in_environ w "USERPROFILE"))
      (emit (Log DEBUG "USERPROFILE environment variable does not exist") ;;
       return_ VNone) ;;
    userprofile <- environ_get w "USERPROFILE" ;;
    let log_path :=
      joinpath w (path_of w userprofile)
        "AppData/LocalLow/Cognosphere/Star Rail/Player.log" in
    when (negb (exists_ w log_path))
      (emit (Log DEBUG "Player.log not found") ;;
       return_ VNone) ;;
    let regex :=
      Re.compile "Loading player data from " "/StarRail_Data/data.unity3d" in
    with_ (open_ w log_path) (fun fp =>
      for_lines w fp (fun line =>
        match Re.search regex line with
        | Some group1 => return_ (VStr group1)
        | None => pass
        end)) ;;
    emit (Log DEBUG "game path not found in output_log") ;;
    return_ VNone).

Definition get_game_path_linux : comp value :=
  call (
    hsr_config_path <-
      expanduser w
        (path_of w "~/.local/share/honkers-railway-launcher/config.json") ;;
    when (negb (exists_ w hsr_config_path))
      (emit (Log DEBUG "launcher configuration not found") ;;
       return_ VNone) ;;
    config <- with_ (open_ w hsr_config_path) (fun fp => json_load w fp) ;;
    try_except
      (glob <- getitem3 config "game" "path" "global" ;;
       global_path <- Path_of_json w glob ;;
       when (exists_ w global_path) (return_ (VPath global_path)) ;;
       china <- getitem3 config "game" "path" "china" ;;
       china_path <- Path_of_json w china ;;
       when (exists_ w china_path) (return_ (VPath china_path)))
      [KeyError]
      pass ;;
    emit (Log DEBUG "game folder configuration in launcher could not be found") ;;
    return_ VNone).

Definition get_game_path : comp value :=
  call (
    if in_environ w "GAME_PATH" then
      override <- environ_get w "GAME_PATH" ;;
      let game_path := path_of w override in
      let sub_path := joinpath w game_path "Games" in
      return_ (VPath (if exists_ w sub_path then sub_path else game_path))
    else if String.eqb (platform w) "win32" then
      r <- get_game_path_windows ;; return_ r
    else if String.eqb (platform w) "linux" then
      r <- get_game_path_linux ;; return_ r
    else
      return_ VNone).

Definition version_key (p : Path) : list string := Str.split "." (name p).

Definition get_web_cache_path (game_path : value) : comp value :=
  call (
    web_caches <- truediv w game_path "StarRail_Data/webCaches/" ;;
    entries <- iterdir w web_caches ;;
    let versions :=
      List.filter (fun p => is_dir w p && Str.contains "." (name p)) entries in
    when (match versions with [] => true | _ => false end) (return_ VNone) ;;
    let versions := sort_by version_key versions in
    newest <- last_item versions ;;
    return_ (VPath newest)).

Definition get_cache_path : comp value :=
  call (
    game_path <- get_game_path ;;
    when (negb (truthy game_path)) (return_ VNone) ;;
    web_cache_path <- get_web_cache_path game_path ;;
    when (negb (truthy web_cache_path))
      (emit (Log DEBUG "could not find latest webCaches subfolder") ;;
       return_ VNone) ;;
    path <- truediv w web_cache_path "Cache/Cache_Data/data_2" ;;
    emit (Log DEBUG ("cache path is: " +:+ path_str w path)) ;;
    when (negb (exists_ w path))
      (emit (Log DEBUG "cache file does not exist") ;;
       return_ VNone) ;;
    if String.eqb (platform w) "win32" then
      try_except
        (data_path <- get_data_path ;;
         copy_path <- truediv w data_path "data_2" ;;
         check_output w
           ("powershell.exe -Command " +:+ String Str.dquote
              ("Copy-Item '" +:+ path_str w path +:+ "' '"
               +:+ path_str w copy_path +:+ "'" +:+ String Str.dquote "")) ;;
         return_ (VPath copy_path))
        [FileNotFoundError; CalledProcessError; OSError]
        (emit (Log ERROR "Could not create copy of cache file") ;;
         return_ VNone)
    else
      return_ (VPath path)).

Definition set_up_logging : comp value :=
  call (
    let log_level := if in_environ w "DEBUG" then DEBUG else INFO in
    let log_format := "%(asctime)s %(levelname)s: %(message)s" in
    data_path <- get_data_path ;;
    filename <- truediv w data_path "warp-journal.log" ;;
    emit (BasicConfig filename log_format log_level) ;;
    (* add a stream handler for log output to stdout *)
    emit (AddHandler "stdout" log_format log_level) ;;
    emit (Log INFO "Starting Warp Journal")).

Definition is_port_in_use (port : Z) : comp value :=
  call (
    with_ (ret tt) (fun s =>
      try_except
        (sock_bind w "localhost" port ;;
         return_ (VBool false))
        [OSError]
        (return_ (VBool true)))).

Definition probe_url (port : Z) : string :=
  "http://localhost:" +:+ pretty port +:+ "/warp-journal".

(** The body of the loop of [get_usable_port]. *)
Definition try_port (port : Z) : comp unit :=
  in_use <- is_port_in_use port ;;
  when (negb (truthy in_use)) (return_ (VInt port)) ;;
  try_except
    (with_ (B := unit) (urlopen w (probe_url port) (1 # 10)) (fun _ =>
       return_ (VInt port)) ;;
     panic "Warp Journal is already running." ;;
     pass)
    [URLError; HTTPError]
    continue_.

Definition candidate_ports : list Z := range 6193 (6193 + 10).

Definition get_usable_port : comp value :=
  call (
    for_ candidate_ports try_port ;;
    panic "No suitable port found." ;;
    pass).

End Util.

(** * Vocabulary of the statements *)

(** [a] is at most [b] in the order of [list_lt]. *)
Definition key_le (a b : list string) : Prop := a = b \/ list_lt a b = true.

(** [x] comes before [y] when sorted by [key]. *)
Definition ordered {A} (key : A -> list string) (x y : A) : Prop :=
  key_le (key x) (key y).

Definition is_version_dir (w : World) (p : Path) : bool :=
  is_dir w p && Str.contains "." (name p).

Definition version_dirs (w : World) (root : Path) : list Path :=
  List.filter (is_version_dir w) (map (fun n => root ++ [n]) (listdir w root)).

Definition hsr_dir : Path := ["/"; "games"; "hsr"].
Definition hsr_web_caches : Path := hsr_dir ++ ["StarRail_Data"; "webCaches"].

(** A Linux host: the web-cache root lists the version directories "10.0"
    and "9.0", a plain file "notes.txt" and a directory "Crashpad". *)
Definition two_versions (listing : list string) : World := {|
  platform := "linux";
  environ := ∅;
  home := Some "/home/trailblazer";
  kind_of := fun p =>
    if decide (p = hsr_web_caches ++ ["notes.txt"]) then Some KFile
    else if decide (p ∈ [hsr_dir; hsr_dir ++ ["StarRail_Data"]; hsr_web_caches;
                         hsr_web_caches ++ ["10.0"]; hsr_web_caches ++ ["9.0"];
                         hsr_web_caches ++ ["Crashpad"]])
    then Some KDir else None;
  listdir := fun p => if decide (p = hsr_web_caches) then listing else [];
  chunks_of := fun _ => [];
  decode := Text.utf_8;
  json_of := fun _ => None;
  bind_fails := fun _ _ => false;
  http_get := fun _ => Some URLError;
  tkinter := false;
  shell_fails := fun _ => None
|}.

(** A candidate port held by an unrelated process: binding fails and the
    probe fails with one of the errors the scan handles. *)
Definition foreign (w : World) (port : Z) : Prop :=
  bind_fails w "localhost" port = true
  /\ (http_get w (probe_url port) = Some URLError
      \/ http_get w (probe_url port) = Some HTTPError).

(** The bind attempt and the probe made on one occupied candidate. *)
Definition attempt (port : Z) : list event :=
  [Bind "localhost" port; UrlOpen (probe_url port) (1 # 10)].

Definition attempts (ports : list Z) : list event :=
  concat (map attempt ports).

(** The same host once this application serves on [port]: binding that
    port fails and the probe of that port is answered. *)
Definition serving (w : World) (port : Z) : World := {|
  platform := platform w;
  environ := environ w;
  home := home w;
  kind_of := kind_of w;
  listdir := listdir w;
  chunks_of := chunks_of w;
  decode := decode w;
  json_of := json_of w;
  bind_fails := fun host q =>
    if decide (host = "localhost" /\ q = port) then true else bind_fails w host q;
  http_get := fun url =>
    if decide (url = probe_url port) then None else http_get w url;
  tkinter := tkinter w;
  shell_fails := shell_fails w
|}.

(** [try_port] with an arbitrary statement where the source has the call
    [panic('Warp Journal is already running.')]. *)
Definition try_port_with (w : World) (stmt : comp unit) (port : Z) : comp unit :=
  in_use <- is_port_in_use w port ;;
  when (negb (truthy in_use)) (return_ (VInt port)) ;;
  try_except
    (with_ (B := unit) (urlopen w (probe_url port) (1 # 10)) (fun _ =>
       return_ (VInt port)) ;;
     stmt)
    [URLError; HTTPError]
    continue_.

(** How the scan of a list of candidates ends. *)
Inductive scan_end (w : World) (l : list Z) : comp unit -> Prop :=
| scan_exhausted :
    Forall (foreign w) l ->
    scan_end w l (attempts l, Normal tt)
| scan_free pre p post :
    l = pre ++ p :: post -> Forall (foreign w) pre ->
    bind_fails w "localhost" p = false ->
    scan_end w l (attempts pre ++ [Bind "localhost" p], Return (VInt p))
| scan_answered pre p post :
    l = pre ++ p :: post -> Forall (foreign w) pre ->
    bind_fails w "localhost" p = true ->
    http_get w (probe_url p) = None ->
    scan_end w l (attempts pre ++ attempt p, Return (VInt p))
| scan_crashed pre p post c :
    l = pre ++ p :: post -> Forall (foreign w) pre ->
    bind_fails w "localhost" p = true ->
    http_get w (probe_url p) = Some c ->
    caught_by [URLError; HTTPError] (raised c) = false ->
    scan_end w l (attempts pre ++ attempt p, Raise (raised c)).

Definition exit1 : exn := Exn SystemExit (Some 1).

(** A host on which the listed ports are occupied; [probe] tells how the
    probe of an occupied candidate ends. *)
Definition host (occupied : list Z) (probe : Z -> option exn_class)
    (gui : bool) : World := {|
  platform := "linux";
  environ := ∅;
  home := Some "/home/trailblazer";
  kind_of := fun _ => None;
  listdir := fun _ => [];
  chunks_of := fun _ => [];
  decode := Text.utf_8;
  json_of := fun _ => None;
  bind_fails := fun _ port => bool_decide (port ∈ occupied);
  http_get := fun url =>
    match List.find (fun port => String.eqb url (probe_url port)) occupied with
    | Some port => probe port
    | None => Some URLError
    end;
  tkinter := gui;
  shell_fails := fun _ => None
|}.

(** Ports 6193 to 6196 are held by listeners that refuse the probe. *)
Definition four_foreign : World :=
  host [6193; 6194; 6195; 6196] (fun _ => Some URLError) true.

(** Port 6193 is held by a foreign listener, 6194 by this application. *)
Definition second_instance : World :=
  host [6193; 6194] (fun p => if decide (p = 6194) then None else Some HTTPError) true.

(** Ports 6193 to 6196 are held by listeners that accept the connection and
    never answer: each probe ends in [TimeoutError]. *)
Definition four_silent : World :=
  host [6193; 6194; 6195; 6196] (fun _ => Some TimeoutError) true.

(** Port 6193 is held by a running instance of the application. *)
Definition reused_port : World := host [6193] (fun _ => None) true.

(** Port 6193 is held by a web server that answers the probe with an error
    status, 6194 by a listener that never answers. *)
Definition silent_second : World :=
  host [6193; 6194]
    (fun p => if decide (p = 6193) then Some HTTPError else Some TimeoutError)
    true.

(** Every candidate is held by a foreign listener and there is no GUI
    toolkit. *)
Definition headless_full : World :=
  host candidate_ports (fun _ => Some URLError) false.

Definition is_io (ev : event) : Prop :=
  match ev with
  | Bind _ _ | UrlOpen _ _ => True
  | _ => False
  end.

(** What is on disk: the listed files and directories, nothing else. *)
Definition disk (dirs files : list Path) (p : Path) : option kind :=
  if bool_decide (p ∈ files) then Some KFile
  else if bool_decide (p ∈ dirs) then Some KDir
  else None.

(** A host described by its platform, environment and disk content, in a
    UTF-8 locale; every text file holds the lines [log] and is read in one
    piece, every JSON file holds the document [config]. *)
Definition machine (plat : string) (env : gmap string string)
    (dirs files : list Path) (log : list string) (config : option json)
    : World := {|
  platform := plat;
  environ := env;
  home := Some "/home/trailblazer";
  kind_of := disk dirs files;
  listdir := fun _ => [];
  chunks_of := fun _ => [Str.join "" log];
  decode := Text.utf_8;
  json_of := fun _ => config;
  bind_fails := fun _ _ => false;
  http_get := fun _ => Some URLError;
  tkinter := false;
  shell_fails := fun _ => None
|}.

Definition override_with_games : World :=
  machine "linux" {[ "GAME_PATH" := "/opt/hsr" ]}
    [["/"; "opt"; "hsr"]; ["/"; "opt"; "hsr"; "Games"]] [] [] None.

(** The override names a path that does not exist. *)
Definition override_dangling : World :=
  machine "win32" {[ "GAME_PATH" := "/opt/hsr/" ]} [] [] [] None.

Definition log_regex : Re.regex :=
  Re.compile "Loading player data from " "/StarRail_Data/data.unity3d".



(** A line of a text file, with its line end. *)
Definition eol (s : string) : string := s +:+ String Str.newline EmptyString.


Definition sample_log : list string :=
  [eol "[Subsystems] Discovering subsystems at path C:/StarRail_Data/UnitySubsystems";
   eol "Loading player data from /opt/games/StarRail/StarRail_Data/data.unity3d";
   eol "Loading player data from /second/StarRail_Data/data.unity3d"].



(** The launcher's [config.json] under the home directory [h]. *)
Definition launcher_config (w : World) (h : string) : Path :=
  path_of w h ++ [".local"; "share"; "honkers-railway-launcher"; "config.json"].

(** [config['game']['path'][region]] *)
Definition region_path (config : json) (region : string) : comp json :=
  getitem3 config "game" "path" region.

Definition not_configured : comp value :=
  ([Log DEBUG "game folder configuration in launcher could not be found"],
   Normal VNone).

(** A launcher configuration with both regions. *)
Definition both_regions : json :=
  JObj [("launcher", JObj [("language", JStr "en-us")]);
        ("game", JObj [("path", JObj [("global", JStr "/games/hsr-global");
                                      ("china", JStr "/games/hsr-china")])])].

Definition config_json : Path :=
  ["/"; "home"; "trailblazer"; ".local"; "share"; "honkers-railway-launcher";
   "config.json"].

(** Only the [china] installation exists on disk. *)
Definition china_only : World :=
  machine "linux" ∅ [["/"; "games"; "hsr-china"]] [config_json] []
    (Some both_regions).

(** The cache file under a version directory. *)
Definition data_2 (version_dir : Path) : Path :=
  version_dir ++ ["Cache"; "Cache_Data"; "data_2"].

Definition no_web_cache_log : event :=
  Log DEBUG "could not find latest webCaches subfolder".

(** A Linux host where the override names an installation whose web-cache
    directory was never created. *)
Definition fresh_install : World :=
  machine "linux" {[ "GAME_PATH" := "/games/hsr" ]}
    [["/"; "games"; "hsr"]; ["/"; "games"; "hsr"; "StarRail_Data"]] [] [] None.

(** No proper ancestor of [p] is a regular file. *)
Definition parents_ok (w : World) (p : Path) : Prop :=
  forall i, (1 <= i < length p)%nat -> kind_of w (take i p) <> Some KFile.

(** The message of the fatal error for a data directory that is a file. *)
Definition is_a_file (w : World) (p : Path) : string :=
  path_str w p +:+ " already exists, but is a file.".

Definition unsupported_platform : string :=
  "Warp Journal is only designed to run on Windows or Linux-based systems.".

Definition log_format : string := "%(asctime)s %(levelname)s: %(message)s".

(** A Windows host with the given environment and disk. *)
Definition windows_pc (env : gmap string string) (dirs files : list Path)
    : World :=
  machine "win32" env dirs files [] None.

Definition roaming : Path := ["C:"; "Users"; "tb"; "AppData"; "Roaming"].

(** A macOS host with [XDG_DATA_HOME] set and no known home directory. *)
Definition mac_with_xdg : World := {|
  platform := "darwin";
  environ := {[ "XDG_DATA_HOME" := "/Users/tb/.data" ]};
  home := None;
  kind_of := disk [["/"; "Users"; "tb"; ".data"; "warp-journal"]] [];
  listdir := fun _ => [];
  chunks_of := fun _ => [];
  decode := Text.utf_8;
  json_of := fun _ => None;
  bind_fails := fun _ _ => false;
  http_get := fun _ => Some URLError;
  tkinter := false;
  shell_fails := fun _ => None
|}.

(** The command line handed to the shell to copy [src] to [dst]. *)
Definition copy_command (w : World) (src dst : Path) : string :=
  "powershell.exe -Command " +:+ String Str.dquote
    ("Copy-Item '" +:+ path_str w src +:+ "' '" +:+ path_str w dst +:+ "'"
     +:+ String Str.dquote "").

Definition cache_path_log (w : World) (p : Path) : event :=
  Log DEBUG ("cache path is: " +:+ path_str w p).

Definition copy_failed_log : event :=
  Log ERROR "Could not create copy of cache file".

(** The web-cache root of the game directory [g]. *)
Definition web_caches (g : Path) : Path := g ++ ["StarRail_Data"; "webCaches"].

(** A Linux host with one complete web cache, version 2.27.0.0. *)
Definition linux_with_cache : World := {|
  platform := "linux";
  environ := {[ "GAME_PATH" := "/games/hsr" ]};
  home := Some "/home/trailblazer";
  kind_of :=
    disk [hsr_dir; hsr_web_caches; hsr_web_caches ++ ["2.27.0.0"]]
         [data_2 (hsr_web_caches ++ ["2.27.0.0"])];
  listdir := fun p => if decide (p = hsr_web_caches) then ["2.27.0.0"] else [];
  chunks_of := fun _ => [];
  decode := Text.utf_8;
  json_of := fun _ => None;
  bind_fails := fun _ _ => false;
  http_get := fun _ => Some URLError;
  tkinter := false;
  shell_fails := fun _ => None
|}.

(** The same disk on Windows; the shell fails with [fails]. *)
Definition windows_with_cache (env : gmap string string)
    (fails : option exn_class) : World := {|
  platform := "win32";
  environ := env;
  home := None;
  kind_of :=
    disk [hsr_dir; hsr_web_caches; hsr_web_caches ++ ["2.27.0.0"];
          ["C:"; "Roaming"]; ["C:"; "Roaming"; "warp-journal"]]
         [data_2 (hsr_web_caches ++ ["2.27.0.0"])];
  listdir := fun p => if decide (p = hsr_web_caches) then ["2.27.0.0"] else [];
  chunks_of := fun _ => [];
  decode := Text.utf_8;
  json_of := fun _ => None;
  bind_fails := fun _ _ => false;
  http_get := fun _ => Some URLError;
  tkinter := false;
  shell_fails := fun _ => fails
|}.

Definition windows_env : gmap string string :=
  {[ "GAME_PATH" := "/games/hsr"; "APPDATA" := "C:/Roaming" ]}.

(** A log line that names two data files. *)
Definition two_markers : string :=
  eol ("Loading player data from /a/StarRail_Data/data.unity3d"
       +:+ " then /b/StarRail_Data/data.unity3d").

(** Port 6193 is held by a listener that accepts the connection and never
    answers: the probe ends in [TimeoutError]. *)
Definition silent_listener : World :=
  host [6193] (fun _ => Some TimeoutError) true.

(** * Properties *)

(** ** The order on version keys *)

Section Order.

Lemma ascii_compare_refl (c : ascii) : Ascii.compare c c = Eq.
Proof. apply N.compare_refl. Qed.

Lemma string_compare_refl (s : string) : String.compare s s = Eq.
Proof. induction s as [|c s IH]; simpl; [done|]. by rewrite ascii_compare_refl. Qed.

Lemma string_compare_lt_trans (a b c : string) :
  String.compare a b = Lt -> String.compare b c = Lt -> String.compare a c = Lt.
Proof.
  revert b c. induction a as [|x a IH]; intros [|y b] [|z c]; simpl; try done.
  unfold Ascii.compare.
  destruct (N.compare_spec (N_of_ascii x) (N_of_ascii y)) as [Hxy|Hxy|Hxy];
    destruct (N.compare_spec (N_of_ascii y) (N_of_ascii z)) as [Hyz|Hyz|Hyz];
    destruct (N.compare_spec (N_of_ascii x) (N_of_ascii z)) as [Hxz|Hxz|Hxz];
    try done; try lia.
  apply IH.
Qed.

Lemma str_lt_irrefl (a : string) : Str.lt a a = false.
Proof. unfold Str.lt, String.ltb. by rewrite string_compare_refl. Qed.

Lemma str_lt_trans (a b c : string) :
  Str.lt a b = true -> Str.lt b c = true -> Str.lt a c = true.
Proof.
  unfold Str.lt, String.ltb. intros Hab Hbc.
  destruct (String.compare a b) eqn:E1; try done.
  destruct (String.compare b c) eqn:E2; try done.
  by rewrite (string_compare_lt_trans a b c).
Qed.

Lemma str_lt_trichotomy (a b : string) :
  Str.lt a b = true \/ a = b \/ Str.lt b a = true.
Proof.
  unfold Str.lt, String.ltb. rewrite (String.compare_antisym b a).
  destruct (String.compare a b) eqn:E; simpl; auto.
  right; left. by apply String.compare_eq_iff.
Qed.

Lemma str_lt_asym (a b : string) : Str.lt a b = true -> Str.lt b a = false.
Proof.
  unfold Str.lt, String.ltb. rewrite (String.compare_antisym b a).
  by destruct (String.compare a b).
Qed.

Lemma list_lt_irrefl (a : list string) : list_lt a a = false.
Proof. induction a as [|x a IH]; simpl; [done|]. by rewrite String.eqb_refl. Qed.

Lemma list_lt_trans (a b c : list string) :
  list_lt a b = true -> list_lt b c = true -> list_lt a c = true.
Proof.
  revert b c. induction a as [|x a IH]; intros [|y b] [|z c]; simpl; try done.
  destruct (String.eqb_spec x y) as [->|Hxy];
    destruct (String.eqb_spec y z) as [->|Hyz]; try done.
  - apply IH.
  - destruct (String.eqb_spec x z) as [->|Hxz]; [contradiction|done].
  - intros Hlt Hlt'. destruct (String.eqb_spec x z) as [->|Hxz].
    + by rewrite (str_lt_asym _ _ Hlt) in Hlt'.
    + by apply (str_lt_trans x y z).
Qed.

Lemma list_lt_trichotomy (a b : list string) :
  list_lt a b = true \/ a = b \/ list_lt b a = true.
Proof.
  revert b. induction a as [|x a IH]; intros [|y b]; simpl; auto.
  rewrite (String.eqb_sym y x).
  destruct (String.eqb_spec x y) as [->|Hxy].
  - destruct (IH b) as [?|[->|?]]; auto.
  - destruct (str_lt_trichotomy x y) as [?|[?|?]]; auto; contradiction.
Qed.

Lemma list_lt_asym (a b : list string) : list_lt a b = true -> list_lt b a = false.
Proof.
  intros Hab. destruct (list_lt b a) eqn:Hba; [|done].
  by rewrite <- (list_lt_irrefl a), (list_lt_trans a b a).
Qed.

End Order.

Lemma key_le_not_lt (a b : list string) : key_le a b <-> list_lt b a = false.
Proof.
  split.
  - intros [->|H]; [apply list_lt_irrefl | by apply list_lt_asym].
  - intros H. destruct (list_lt_trichotomy a b) as [?|[?|?]];
      [by right | by left | congruence].
Qed.

Lemma key_le_trans (a b c : list string) : key_le a b -> key_le b c -> key_le a c.
Proof.
  intros [->|Hab] [->|Hbc]; [by left | by right | by right |].
  right. by apply (list_lt_trans a b c).
Qed.

Lemma key_le_antisym (a b : list string) : key_le a b -> key_le b a -> a = b.
Proof.
  intros [->|Hab] [Heq|Hba]; try done.
  by rewrite (list_lt_asym _ _ Hab) in Hba.
Qed.

(** ** Sorting *)

Section Sorting.
Context {A : Type} (key : A -> list string).

Lemma insert_by_perm (x : A) (l : list A) : insert_by key x l ≡ₚ x :: l.
Proof.
  induction l as [|y l IH]; simpl; [done|].
  destruct (list_lt (key y) (key x)); [|done].
  rewrite IH. apply Permutation_swap.
Qed.

Lemma sort_by_perm (l : list A) : sort_by key l ≡ₚ l.
Proof.
  induction l as [|x l IH]; simpl; [done|].
  unfold sort_by in *. simpl. by rewrite insert_by_perm, IH.
Qed.

Lemma insert_by_sorted (x : A) (l : list A) :
  StronglySorted (ordered key) l -> StronglySorted (ordered key) (insert_by key x l).
Proof.
  induction 1 as [|y l Hs IH Hy]; simpl.
  - by repeat constructor.
  - destruct (list_lt (key y) (key x)) eqn:Hlt.
    + constructor; [done|].
      rewrite insert_by_perm. constructor; [by right | done].
    + apply key_le_not_lt in Hlt. constructor.
      * by constructor.
      * constructor; [done|].
        eapply Forall_impl; [apply Hy|]. intros z Hz.
        by apply (key_le_trans _ (key y)).
Qed.

Lemma sort_by_sorted (l : list A) : StronglySorted (ordered key) (sort_by key l).
Proof.
  induction l as [|x l IH]; [constructor|].
  by apply insert_by_sorted.
Qed.

Lemma sorted_last_max (l : list A) (m : A) :
  StronglySorted (ordered key) l -> last l = Some m -> Forall (fun x => ordered key x m) l.
Proof.
  induction 1 as [|y l Hs IH Hy]; [done|].
  destruct l as [|z l].
  - intros [= ->]. repeat constructor.
  - rewrite last_cons_cons. intros Hlast.
    specialize (IH Hlast). constructor; [|done].
    apply (key_le_trans _ (key z)).
    + by inversion Hy.
    + by inversion IH.
Qed.

(** The last element of the sorted list is an element of the input whose
    key no other key exceeds. *)
Lemma sort_by_last (l : list A) (m : A) :
  last (sort_by key l) = Some m ->
  m ∈ l /\ forall x, x ∈ l -> ordered key x m.
Proof.
  intros Hlast. split.
  - rewrite <- (sort_by_perm l). by apply last_Some_elem_of.
  - intros x Hx. rewrite <- (sort_by_perm l) in Hx.
    pose proof (sorted_last_max _ _ (sort_by_sorted l) Hlast) as Hall.
    rewrite Forall_forall in Hall. by apply Hall.
Qed.

Lemma sort_by_nil (l : list A) : sort_by key l = [] <-> l = [].
Proof.
  split; [|by intros ->].
  intros H. apply Permutation_nil. by rewrite <- H, sort_by_perm.
Qed.

End Sorting.

Section SortingChoice.
Context {A : Type} (key : A -> list string).

(** Two lists with the same elements, on which the key is injective, have
    the same last element after sorting. *)
Lemma sort_by_last_same_elements (l l' : list A) :
  (forall x, x ∈ l <-> x ∈ l') ->
  (forall x y, x ∈ l -> y ∈ l -> key x = key y -> x = y) ->
  last (sort_by key l) = last (sort_by key l').
Proof.
  intros Hsame Hinj.
  destruct (last (sort_by key l)) as [m|] eqn:Hl;
    destruct (last (sort_by key l')) as [m'|] eqn:Hl'; [| | |done].
  - apply sort_by_last in Hl as [Hm Hmax], Hl' as [Hm' Hmax'].
    f_equal. apply Hinj; [done | by apply Hsame |].
    apply key_le_antisym.
    + apply Hmax'. by apply Hsame.
    + apply Hmax. by apply Hsame.
  - apply sort_by_last in Hl as [Hm _].
    apply last_None, sort_by_nil in Hl'. subst l'.
    apply Hsame in Hm. by apply not_elem_of_nil in Hm.
  - apply sort_by_last in Hl' as [Hm' _].
    apply last_None, sort_by_nil in Hl. subst l.
    apply Hsame in Hm'. by apply not_elem_of_nil in Hm'.
Qed.

End SortingChoice.

(** ** Splitting and joining *)

Lemma split_by_nonempty (f : ascii -> bool) (s : string) : Str.split_by f s <> [].
Proof.
  destruct s as [|c s]; simpl; [done|].
  destruct (f c); [done|]. by destruct (Str.split_by f s).
Qed.

Lemma join_split (c : ascii) (s : string) :
  Str.join (String c EmptyString) (Str.split c s) = s.
Proof.
  unfold Str.split. induction s as [|x s IH]; simpl; [done|].
  pose proof (split_by_nonempty (Ascii.eqb c) s) as Hne.
  destruct (Ascii.eqb_spec c x) as [->|Hcx].
  - destruct (Str.split_by (Ascii.eqb x) s) as [|y ys] eqn:E; [done|].
    simpl in *. by rewrite IH.
  - destruct (Str.split_by (Ascii.eqb c) s) as [|y ys] eqn:E; [done|].
    simpl in *. rewrite <- IH. by destruct ys.
Qed.

Lemma split_inj (c : ascii) (s t : string) : Str.split c s = Str.split c t -> s = t.
Proof. intros H. by rewrite <- (join_split c s), <- (join_split c t), H. Qed.

(** ** Paths *)

Lemma name_child (p : Path) (n : string) : p <> [] -> name (p ++ [n]) = n.
Proof.
  intros Hp. unfold name. rewrite last_snoc, length_app. simpl.
  destruct p as [|x p]; [done|]. simpl.
  by replace (length p + 1)%nat with (S (length p)) by lia.
Qed.

Lemma path_of_web_caches (w : World) :
  path_of w "StarRail_Data/webCaches/" = ["StarRail_Data"; "webCaches"].
Proof. unfold path_of, is_sep. by destruct (String.eqb (platform w) "win32"). Qed.

Lemma joinpath_web_caches (w : World) (g : Path) :
  joinpath w g "StarRail_Data/webCaches/" = g ++ ["StarRail_Data"; "webCaches"].
Proof. unfold joinpath. by rewrite path_of_web_caches. Qed.

Lemma joinpath_same_platform (w w' : World) (p : Path) (s : string) :
  platform w' = platform w -> joinpath w' p s = joinpath w p s.
Proof. intros H. unfold joinpath, path_of, is_sep. by rewrite H. Qed.

(** ** The version directories of a web-cache root *)

Lemma elem_of_version_dirs (w : World) (root p : Path) :
  root <> [] ->
  p ∈ version_dirs w root <->
  exists n, p = root ++ [n] /\ n ∈ listdir w root
            /\ is_dir w (root ++ [n]) = true /\ Str.contains "." n = true.
Proof.
  intros Hroot. unfold version_dirs, is_version_dir.
  rewrite list_elem_of_In, filter_In, in_map_iff. split.
  - intros [(n & <- & Hn) Hq]. rewrite name_child in Hq by done.
    apply andb_true_iff in Hq as [??]. exists n.
    by rewrite list_elem_of_In.
  - intros (n & -> & Hn & Hd & Hc). rewrite name_child by done. split.
    + exists n. by rewrite <- list_elem_of_In.
    + by rewrite Hd, Hc.
Qed.

Lemma version_key_inj (w : World) (root p q : Path) :
  root <> [] ->
  p ∈ version_dirs w root -> q ∈ version_dirs w root ->
  version_key p = version_key q -> p = q.
Proof.
  intros Hroot Hp Hq.
  apply elem_of_version_dirs in Hp as (n & -> & _), Hq as (m & -> & _); try done.
  unfold version_key. rewrite !name_child by done.
  intros H. by rewrite (split_inj _ _ _ H).
Qed.

Arguments sort_by : simpl never.

(** What [get_web_cache_path] computes when the root is a directory. *)
Lemma get_web_cache_path_dir (w : World) (g : Path) :
  let root := joinpath w g "StarRail_Data/webCaches/" in
  kind_of w root = Some KDir ->
  get_web_cache_path w (VPath g) =
    ([], Normal match last (sort_by version_key (version_dirs w root)) with
                | Some p => VPath p
                | None => VNone
                end).
Proof.
  intros root Hroot. unfold get_web_cache_path, truediv, iterdir. cbn.
  fold root. rewrite Hroot. cbn. fold (is_version_dir w). fold (version_dirs w root).
  destruct (last (sort_by version_key (version_dirs w root))) as [m|] eqn:Hlast.
  - destruct (version_dirs w root) as [|p l] eqn:E; [done|].
    cbn. unfold last_item. by rewrite Hlast.
  - apply last_None, sort_by_nil in Hlast. by rewrite Hlast.
Qed.

(** C1. When the web-cache root of a game directory is a directory with at
    least one entry that is itself a directory and has a dot in its name,
    [get_web_cache_path] returns such an entry whose dot-split name no
    other such entry exceeds in the component-wise lexicographic order
    (no event is logged), and it returns the same entry whatever the order
    in which the directory lists its entries. *)
Theorem newest_version_dir_is_maximum (w : World) (g : Path) :
  let root := joinpath w g "StarRail_Data/webCaches/" in
  kind_of w root = Some KDir ->
  (exists n, n ∈ listdir w root /\ is_dir w (root ++ [n]) = true
             /\ Str.contains "." n = true) ->
  exists n,
    get_web_cache_path w (VPath g) = ([], Normal (VPath (root ++ [n])))
    /\ n ∈ listdir w root
    /\ is_dir w (root ++ [n]) = true
    /\ Str.contains "." n = true
    /\ (forall m, m ∈ listdir w root -> is_dir w (root ++ [m]) = true ->
          Str.contains "." m = true ->
          key_le (Str.split "." m) (Str.split "." n))
    /\ (forall w', platform w' = platform w ->
          (forall p, kind_of w' p = kind_of w p) ->
          listdir w' root ≡ₚ listdir w root ->
          get_web_cache_path w' (VPath g) = get_web_cache_path w (VPath g)).
Proof.
  intros root Hdir (n0 & Hn0 & Hd0 & Hc0).
  assert (Hne : root <> []).
  { unfold root. rewrite joinpath_web_caches. by destruct g. }
  rewrite (get_web_cache_path_dir w g Hdir). fold root.
  destruct (last (sort_by version_key (version_dirs w root))) as [p|] eqn:Hlast.
  - pose proof (sort_by_last _ _ _ Hlast) as [Hp Hmax].
    apply elem_of_version_dirs in Hp as (n & -> & Hn & Hd & Hc); [|done].
    exists n. repeat split; try done.
    + intros m Hm Hdm Hcm.
      assert (Hin : root ++ [m] ∈ version_dirs w root).
      { apply elem_of_version_dirs; [done|]. by exists m. }
      specialize (Hmax _ Hin). unfold ordered, version_key in Hmax.
      by rewrite !name_child in Hmax.
    + intros w' Hplat Hkind Hperm.
      assert (Hroot' : joinpath w' g "StarRail_Data/webCaches/" = root).
      { by apply joinpath_same_platform. }
      assert (Hdir' : kind_of w' (joinpath w' g "StarRail_Data/webCaches/")
                      = Some KDir).
      { by rewrite Hroot', Hkind. }
      rewrite (get_web_cache_path_dir w' g Hdir'), Hroot'.
      rewrite (sort_by_last_same_elements version_key
                 (version_dirs w' root) (version_dirs w root)), Hlast; [done|..].
      * intros q. rewrite !elem_of_version_dirs by done.
        unfold is_dir. setoid_rewrite Hkind. by setoid_rewrite Hperm.
      * intros x y. by apply version_key_inj.
  - apply last_None, sort_by_nil in Hlast.
    assert (Hin : root ++ [n0] ∈ version_dirs w root).
    { apply elem_of_version_dirs; [done|]. by exists n0. }
    rewrite Hlast in Hin. by apply not_elem_of_nil in Hin.
Qed.

Example nine_beats_ten :
  get_web_cache_path (two_versions ["notes.txt"; "9.0"; "Crashpad"; "10.0"])
    (VPath hsr_dir)
  = ([], Normal (VPath (hsr_web_caches ++ ["9.0"]))).
Proof. vm_compute. reflexivity. Qed.

Lemma newest_version_dir_is_maximum_witness :
  exists n,
    get_web_cache_path (two_versions ["10.0"; "notes.txt"; "9.0"]) (VPath hsr_dir)
      = ([], Normal (VPath (hsr_web_caches ++ [n])))
    /\ key_le (Str.split "." "10.0") (Str.split "." n)
    /\ get_web_cache_path (two_versions ["9.0"; "10.0"; "notes.txt"]) (VPath hsr_dir)
       = get_web_cache_path (two_versions ["10.0"; "notes.txt"; "9.0"]) (VPath hsr_dir).
Proof.
  destruct (newest_version_dir_is_maximum
              (two_versions ["10.0"; "notes.txt"; "9.0"]) hsr_dir)
    as (n & Hres & Hn & Hd & Hc & Hmax & Hperm).
  - reflexivity.
  - exists "9.0". repeat split; [|reflexivity..].
    apply list_elem_of_In. vm_compute. tauto.
  - exists n. split; [exact Hres|]. split.
    + apply Hmax; [|reflexivity..]. apply list_elem_of_In. vm_compute. tauto.
    + apply (Hperm (two_versions ["9.0"; "10.0"; "notes.txt"]));
        [reflexivity | reflexivity |].
      change (["9.0"; "10.0"; "notes.txt"] ≡ₚ ["10.0"; "notes.txt"; "9.0"]).
      by apply (Permutation_cons_app ["10.0"; "notes.txt"] []).
Defined.

(** ** The port scan *)

Arguments probe_url : simpl never.
Arguments caught_by : simpl never.

Lemma is_port_in_use_eq (w : World) (p : Z) :
  is_port_in_use w p
  = ([Bind "localhost" p], Normal (VBool (bind_fails w "localhost" p))).
Proof. unfold is_port_in_use. cbn. by destruct (bind_fails w "localhost" p). Qed.

Lemma try_port_free (w : World) (p : Z) :
  bind_fails w "localhost" p = false ->
  try_port w p = ([Bind "localhost" p], Return (VInt p)).
Proof. intros H. unfold try_port. rewrite is_port_in_use_eq, H. reflexivity. Qed.

Lemma try_port_answered (w : World) (p : Z) :
  bind_fails w "localhost" p = true ->
  http_get w (probe_url p) = None ->
  try_port w p = (attempt p, Return (VInt p)).
Proof.
  intros H1 H2. unfold try_port. rewrite is_port_in_use_eq, H1.
  cbn. rewrite H2. reflexivity.
Qed.

Lemma try_port_raised (w : World) (p : Z) (c : exn_class) :
  bind_fails w "localhost" p = true ->
  http_get w (probe_url p) = Some c ->
  try_port w p
  = (attempt p,
     if caught_by [URLError; HTTPError] (raised c) then Continue
     else Raise (raised c)).
Proof.
  intros H1 H2. unfold try_port. rewrite is_port_in_use_eq, H1.
  cbn. rewrite H2. cbn.
  by destruct (caught_by [URLError; HTTPError] (raised c)).
Qed.

Lemma try_port_foreign (w : World) (p : Z) :
  foreign w p -> try_port w p = (attempt p, Continue).
Proof.
  intros [H1 [H2|H2]]; by rewrite (try_port_raised w p _ H1 H2).
Qed.

Lemma for_try_port_foreign (w : World) (pre rest : list Z) :
  Forall (foreign w) pre ->
  for_ (pre ++ rest) (try_port w)
  = after (attempts pre) (for_ rest (try_port w)).
Proof.
  induction 1 as [|q pre Hq Hpre IH]; simpl.
  - by destruct (for_ rest (try_port w)).
  - rewrite (try_port_foreign w q Hq), IH. unfold after, attempts. simpl.
    reflexivity.
Qed.

Lemma candidate_ports_eq :
  candidate_ports = [6193; 6194; 6195; 6196; 6197; 6198; 6199; 6200; 6201; 6202].
Proof. reflexivity. Qed.

(** C2, as the code has it.  The scan visits the ten ports 6193 to 6202 in
    increasing order; at a candidate whose bind succeeds it stops and
    returns that candidate; hence [get_usable_port] returns the first
    candidate whose bind succeeds when every candidate before it is occupied
    and its probe ends in [URLError] or [HTTPError]. *)
Theorem first_free_port_is_returned (w : World) (pre post : list Z) (p : Z) :
  candidate_ports = pre ++ p :: post ->
  Forall (foreign w) pre ->
  bind_fails w "localhost" p = false ->
  candidate_ports = [6193; 6194; 6195; 6196; 6197; 6198; 6199; 6200; 6201; 6202]
  /\ for_ (p :: post) (try_port w) = ([Bind "localhost" p], Return (VInt p))
  /\ get_usable_port w = (attempts pre ++ [Bind "localhost" p], Normal (VInt p)).
Proof.
  intros Hsplit Hpre Hfree. split; [reflexivity|].
  assert (Hscan : for_ (p :: post) (try_port w)
                  = ([Bind "localhost" p], Return (VInt p))).
  { simpl. by rewrite (try_port_free w p Hfree). }
  split; [done|].
  unfold get_usable_port. rewrite Hsplit, (for_try_port_foreign w pre _ Hpre), Hscan.
  reflexivity.
Qed.

Lemma string_length_app (a b : string) :
  String.length (a +:+ b) = (String.length a + String.length b)%nat.
Proof. induction a as [|c a IH]; simpl; [done|]. by rewrite IH. Qed.

Lemma string_app_inv_tail (a b s : string) : a +:+ s = b +:+ s -> a = b.
Proof.
  revert b. induction a as [|c a IH]; intros [|d b] H; simpl in *.
  - done.
  - apply (f_equal String.length) in H.
    rewrite !string_length_app in H. simpl in H. lia.
  - apply (f_equal String.length) in H.
    rewrite !string_length_app in H. simpl in H. lia.
  - injection H as -> H. f_equal. by apply IH.
Qed.

Lemma probe_url_inj (p q : Z) : probe_url p = probe_url q -> p = q.
Proof.
  unfold probe_url. intros H.
  apply (inj (String.append "http://localhost:")) in H.
  apply string_app_inv_tail in H. by apply (inj pretty) in H.
Qed.

Lemma caught_url_errors (c : exn_class) :
  caught_by [URLError; HTTPError] (raised c) = true <->
  c = URLError \/ c = HTTPError.
Proof.
  split.
  - destruct c; vm_compute; intros H; try discriminate H; auto.
  - intros [->| ->]; reflexivity.
Qed.

Lemma scan_end_cons (w : World) (q : Z) (l : list Z) (r : comp unit) :
  foreign w q -> scan_end w l r -> scan_end w (q :: l) (after (attempt q) r).
Proof.
  intros Hq Hr. destruct Hr as [Hall|pre p post -> Hpre Hp|pre p post -> Hpre Hp Hg
                               |pre p post c -> Hpre Hp Hg Hc].
  - apply (scan_exhausted w (q :: l)). by constructor.
  - apply (scan_free w _ (q :: pre) p post); [done | by constructor | done].
  - apply (scan_answered w _ (q :: pre) p post); [done | by constructor | done..].
  - apply (scan_crashed w _ (q :: pre) p post c); [done | by constructor | done..].
Qed.

Lemma for_try_port_end (w : World) (l : list Z) :
  scan_end w l (for_ l (try_port w)).
Proof.
  induction l as [|q l IH]; simpl.
  - by apply (scan_exhausted w []).
  - destruct (bind_fails w "localhost" q) eqn:Hb.
    + destruct (http_get w (probe_url q)) as [c|] eqn:Hg.
      * rewrite (try_port_raised w q c Hb Hg).
        destruct (caught_by [URLError; HTTPError] (raised c)) eqn:Hc.
        -- apply scan_end_cons; [|done]. split; [done|].
           apply caught_url_errors in Hc as [->| ->]; auto.
        -- by apply (scan_crashed w _ [] q l c).
      * rewrite (try_port_answered w q Hb Hg).
        by apply (scan_answered w _ [] q l).
    + rewrite (try_port_free w q Hb). by apply (scan_free w _ [] q l).
Qed.

Lemma candidate_ports_NoDup : NoDup candidate_ports.
Proof.
  rewrite candidate_ports_eq.
  by apply (bool_decide_unpack _).
Qed.

Lemma foreign_serving (w : World) (p q : Z) :
  q <> p -> foreign w q -> foreign (serving w p) q.
Proof.
  intros Hne [Hb Hg]. unfold foreign. cbn [serving bind_fails http_get].
  rewrite decide_False by (intros [_ ?]; done).
  rewrite decide_False by (intros H; by apply probe_url_inj in H).
  done.
Qed.

(** What [panic] does: the error is logged, the dialog is shown if the GUI
    toolkit can be imported, the exit is logged, the process exits. *)
Lemma panic_eq (w : World) (msg : string) :
  panic w msg
  = (Log ERROR msg :: (if tkinter w then [ErrorDialog msg] else [])
       ++ [Log INFO "Quitting"],
     Raise exit1).
Proof. unfold panic, show_error_dialog. by destruct (tkinter w). Qed.

Arguments panic : simpl never.

Lemma get_usable_port_of_scan (w : World) (t : list event) (c : completion unit) :
  for_ candidate_ports (try_port w) = (t, c) ->
  get_usable_port w =
    match c with
    | Normal _ => (t ++ (panic w "No suitable port found.").1, Raise exit1)
    | Return v => (t, Normal v)
    | Continue => (t, Normal VNone)
    | Raise e => (t, Raise e)
    end.
Proof.
  intros H. unfold get_usable_port. rewrite H, panic_eq.
  destruct c; reflexivity.
Qed.

(** A port the scan returned is returned again once the application
    serves on it. *)
Lemma get_usable_port_again (w : World) (t : list event) (v : value) :
  get_usable_port w = (t, Normal v) ->
  exists p pre, v = VInt p /\ p ∈ candidate_ports
    /\ get_usable_port (serving w p) = (attempts pre ++ attempt p, Normal (VInt p)).
Proof.
  destruct (for_ candidate_ports (try_port w)) as [t0 c0] eqn:Hfor.
  rewrite (get_usable_port_of_scan w _ _ Hfor).
  pose proof (for_try_port_end w candidate_ports) as Hend.
  pose proof candidate_ports_NoDup as Hnd.
  rewrite Hfor in Hend.
  assert (Hagain : forall pre p post,
    candidate_ports = pre ++ p :: post -> Forall (foreign w) pre ->
    p ∈ candidate_ports
    /\ get_usable_port (serving w p) = (attempts pre ++ attempt p, Normal (VInt p))).
  { intros pre p post Hsplit Hpre. rewrite Hsplit in Hnd.
    split; [rewrite Hsplit; set_solver|].
    apply NoDup_app in Hnd as (_ & Hnotin & _).
    assert (Hpre' : Forall (foreign (serving w p)) pre).
    { apply Forall_forall. intros q Hq. apply foreign_serving.
      - intros ->. apply (Hnotin p Hq). set_solver.
      - rewrite Forall_forall in Hpre. by apply Hpre. }
    apply (get_usable_port_of_scan (serving w p) _ (Return (VInt p))).
    rewrite Hsplit, (for_try_port_foreign _ pre _ Hpre'). simpl for_.
    rewrite try_port_answered;
      [done|cbn [serving bind_fails http_get]..]; by rewrite decide_True. }
  inversion Hend as [Hall|pre p post Hsplit Hpre Hp|pre p post Hsplit Hpre Hp Hg
                    |pre p post c Hsplit Hpre Hp Hg Hc]; subst; try done.
  - intros [= <- <-]. exists p, pre. split; [done|]. by apply (Hagain pre p post).
  - intros [= <- <-]. exists p, pre. split; [done|]. by apply (Hagain pre p post).
Qed.

(** Closed instances of [Forall (foreign w) ports] hold by evaluation. *)
Ltac all_foreign :=
  repeat (apply List.Forall_cons; [split; [reflexivity | vm_compute; auto] |]);
  apply List.Forall_nil.

Lemma first_free_port_is_returned_witness :
  get_usable_port four_foreign
  = (attempts [6193; 6194; 6195; 6196] ++ [Bind "localhost" 6197],
     Normal (VInt 6197)).
Proof.
  apply (first_free_port_is_returned four_foreign
           [6193; 6194; 6195; 6196] [6198; 6199; 6200; 6201; 6202] 6197).
  - reflexivity.
  - all_foreign.
  - reflexivity.
Defined.

(** The outcomes of the probe that the scan handles.  At a candidate whose
    bind fails the scan sends a GET for [/warp-journal] on that port with a
    timeout below one second.  If a
    response arrives the candidate is returned; if the probe ends in
    [URLError] or [HTTPError] the scan goes on with the next candidate.  So
    [get_usable_port] returns an occupied candidate that answers when the
    candidates before it are foreign, and a port it returned is returned
    again once the application serves on it. *)
Theorem occupied_port_probe_decides (w : World) (p : Z) (rest : list Z) :
  bind_fails w "localhost" p = true ->
  (exists t,
     attempt p = [Bind "localhost" p;
                  UrlOpen ("http://localhost:" +:+ pretty p +:+ "/warp-journal") t]
     /\ (t < 1)%Q)
  /\ (http_get w (probe_url p) = None ->
      for_ (p :: rest) (try_port w) = (attempt p, Return (VInt p)))
  /\ (http_get w (probe_url p) = Some URLError
      \/ http_get w (probe_url p) = Some HTTPError ->
      for_ (p :: rest) (try_port w) = after (attempt p) (for_ rest (try_port w)))
  /\ (forall pre, candidate_ports = pre ++ p :: rest ->
      Forall (foreign w) pre ->
      http_get w (probe_url p) = None ->
      get_usable_port w = (attempts pre ++ attempt p, Normal (VInt p)))
  /\ (forall t v, get_usable_port w = (t, Normal v) ->
      exists q t', v = VInt q
                   /\ get_usable_port (serving w q) = (t', Normal (VInt q))).
Proof.
  intros Hb. split; [|split; [|split; [|split]]].
  - exists (1 # 10)%Q. split; reflexivity.
  - intros Hg. simpl. by rewrite (try_port_answered w p Hb Hg).
  - intros Hg. simpl. by rewrite (try_port_foreign w p (conj Hb Hg)).
  - intros pre Hsplit Hpre Hg.
    apply (get_usable_port_of_scan w _ (Return (VInt p))).
    rewrite Hsplit, (for_try_port_foreign w pre _ Hpre). simpl for_.
    by rewrite (try_port_answered w p Hb Hg).
  - intros t v Hrun.
    destruct (get_usable_port_again w t v Hrun) as (q & pre & -> & _ & Hq).
    by exists q, (attempts pre ++ attempt q).
Qed.

Lemma occupied_port_probe_decides_witness :
  get_usable_port second_instance
  = (attempts [6193] ++ attempt 6194, Normal (VInt 6194))
  /\ exists t', get_usable_port (serving second_instance 6194)
                = (t', Normal (VInt 6194)).
Proof.
  assert (Hb : bind_fails second_instance "localhost" 6194 = true)
    by reflexivity.
  destruct (occupied_port_probe_decides second_instance 6194
              [6195; 6196; 6197; 6198; 6199; 6200; 6201; 6202] Hb)
    as (_ & _ & _ & Hrun & Hagain).
  assert (Hfirst : get_usable_port second_instance
                   = (attempts [6193] ++ attempt 6194, Normal (VInt 6194))).
  { apply (Hrun [6193]).
    - reflexivity.
    - all_foreign.
    - vm_compute. reflexivity. }
  split; [exact Hfirst|].
  destruct (Hagain _ _ Hfirst) as (q & t' & Hq & Hq').
  injection Hq as <-. by exists t'.
Defined.

(** C2, as stated, fails in two ways.  Where ports 6193 to 6196 are held by
    listeners that accept the probe's connection and never answer, and 6197
    is free, the probe of 6193 ends in [TimeoutError], which leaves
    [get_usable_port]: 6197 is not returned.  Where 6193 is held by a
    running instance of the application and 6194 is free, the occupied 6193
    is returned, not the first candidate on which a bind succeeds. *)
Lemma first_free_port_not_returned :
  (Forall (fun q => bind_fails four_silent "localhost" q = true
                    /\ http_get four_silent (probe_url q) = Some TimeoutError)
     [6193; 6194; 6195; 6196]
   /\ bind_fails four_silent "localhost" 6197 = false
   /\ get_usable_port four_silent
      = (attempt 6193, Raise (raised TimeoutError)))
  /\ (bind_fails reused_port "localhost" 6193 = true
      /\ bind_fails reused_port "localhost" 6194 = false
      /\ get_usable_port reused_port = (attempt 6193, Normal (VInt 6193))).
Proof.
  split; [split; [|split]|split; [|split]]; try by vm_compute.
  repeat (apply List.Forall_cons; [split; by vm_compute|]).
  apply List.Forall_nil.
Qed.

Lemma bind_in_attempts (q : Z) (l : list Z) :
  Bind "localhost" q ∈ attempts l -> q ∈ l.
Proof.
  induction l as [|x l IH]; [by intros ?%elem_of_nil|].
  change (attempts (x :: l)) with (attempt x ++ attempts l).
  unfold attempt. rewrite elem_of_app, !elem_of_cons, elem_of_nil.
  intros [[[= ->]|[?|[]]]|?]; [by left|done|right; by apply IH].
Qed.

(** C3.  At a candidate whose bind fails, a probe that ends in a timeout
    ([TimeoutError], raised when the listener accepts the connection and
    does not answer within the tenth of a second) or in a protocol error
    ([HTTPException], raised for a reply that is not HTTP) does not make the
    scan go on: neither class is a [URLError], so the exception leaves the
    loop body and [get_usable_port], and no later candidate is tried, free
    or not. *)
Theorem timeout_or_protocol_error_ends_scan
    (w : World) (pre post : list Z) (p : Z) (c : exn_class) :
  candidate_ports = pre ++ p :: post ->
  Forall (foreign w) pre ->
  bind_fails w "localhost" p = true ->
  http_get w (probe_url p) = Some c ->
  c = TimeoutError \/ c = HTTPException ->
  try_port w p = (attempt p, Raise (raised c))
  /\ get_usable_port w = (attempts pre ++ attempt p, Raise (raised c))
  /\ forall q, q ∈ post -> Bind "localhost" q ∉ (get_usable_port w).1.
Proof.
  intros Hsplit Hpre Hb Hg Hc.
  assert (Hbody : try_port w p = (attempt p, Raise (raised c))).
  { rewrite (try_port_raised w p c Hb Hg). by destruct Hc as [->| ->]. }
  assert (Hrun : get_usable_port w
                 = (attempts pre ++ attempt p, Raise (raised c))).
  { apply (get_usable_port_of_scan w _ (Raise (raised c))).
    rewrite Hsplit, (for_try_port_foreign w pre _ Hpre). simpl for_.
    by rewrite Hbody. }
  split; [done|]. split; [done|].
  intros q Hq Hin. rewrite Hrun in Hin. cbn [fst] in Hin.
  assert (Htried : q ∈ pre ++ [p]).
  { apply bind_in_attempts.
    replace (attempts (pre ++ [p])) with (attempts pre ++ attempt p); [done|].
    unfold attempts. rewrite map_app, concat_app. by simpl. }
  pose proof candidate_ports_NoDup as Hnd.
  rewrite Hsplit, (assoc_L app pre [p] post : pre ++ p :: post = _) in Hnd.
  apply NoDup_app in Hnd as (_ & Hnotin & _). by apply (Hnotin q).
Qed.

Lemma timeout_or_protocol_error_ends_scan_witness :
  bind_fails silent_second "localhost" 6195 = false
  /\ get_usable_port silent_second
     = (attempts [6193] ++ attempt 6194, Raise (raised TimeoutError))
  /\ Bind "localhost" 6195 ∉ (get_usable_port silent_second).1.
Proof.
  split; [reflexivity|].
  destruct (timeout_or_protocol_error_ends_scan silent_second
              [6193] [6195; 6196; 6197; 6198; 6199; 6200; 6201; 6202]
              6194 TimeoutError)
    as (_ & Hrun & Hlater);
    [reflexivity | all_foreign | reflexivity | by vm_compute | by left |].
  split; [exact Hrun|]. apply Hlater. set_solver.
Defined.

(** C4, as the code has it.  When every one of the ten candidates is held
    by a foreign listener, [get_usable_port] tries each candidate once, logs
    "No suitable port found." at error level, shows the error dialog if the
    GUI toolkit can be imported and skips it otherwise, logs "Quitting" and
    leaves the process with exit status 1; it returns no value. *)
Theorem exhausted_range_is_fatal (w : World) :
  Forall (foreign w) candidate_ports ->
  get_usable_port w
  = (attempts candidate_ports
       ++ [Log ERROR "No suitable port found."]
       ++ (if tkinter w then [ErrorDialog "No suitable port found."] else [])
       ++ [Log INFO "Quitting"],
     Raise (Exn SystemExit (Some 1))).
Proof.
  intros Hall.
  rewrite (get_usable_port_of_scan w (attempts candidate_ports) (Normal tt)).
  - by rewrite panic_eq.
  - rewrite <- (app_nil_r candidate_ports) at 1.
    by rewrite (for_try_port_foreign w _ [] Hall).
Qed.

Lemma headless_full_foreign : Forall (foreign headless_full) candidate_ports.
Proof. all_foreign. Qed.

Lemma exhausted_range_is_fatal_witness :
  get_usable_port headless_full
  = (attempts candidate_ports
       ++ [Log ERROR "No suitable port found."; Log INFO "Quitting"],
     Raise (Exn SystemExit (Some 1))).
Proof. apply (exhausted_range_is_fatal headless_full), headless_full_foreign. Defined.

(** C4, as stated, fails where the GUI toolkit cannot be imported: every
    candidate is held by a foreign listener, the process exits with status
    1, and no dialog is shown. *)
Lemma exhausted_range_without_dialog :
  Forall (foreign headless_full) candidate_ports
  /\ (get_usable_port headless_full).2 = Raise (Exn SystemExit (Some 1))
  /\ ~ exists msg, ErrorDialog msg ∈ (get_usable_port headless_full).1.
Proof.
  split; [apply headless_full_foreign|].
  split; [by vm_compute|].
  intros [msg Hin]. apply list_elem_of_In in Hin. vm_compute in Hin.
  repeat (destruct Hin as [Hin|Hin]; [discriminate Hin|]). exact Hin.
Qed.

Lemma try_port_with_eq (w : World) (stmt : comp unit) (port : Z) :
  try_port_with w stmt port = try_port w port.
Proof.
  unfold try_port_with, try_port. rewrite is_port_in_use_eq.
  destruct (bind_fails w "localhost" port); [|reflexivity].
  cbn. by destruct (http_get w (probe_url port)).
Qed.

Lemma attempts_io (l : list Z) : Forall is_io (attempts l).
Proof.
  induction l as [|q l IH]; [constructor|].
  unfold attempts. simpl. by repeat constructor.
Qed.

Lemma scan_end_io (w : World) (l : list Z) (r : comp unit) :
  scan_end w l r -> Forall is_io r.1.
Proof.
  destruct 1; simpl; rewrite ?Forall_app; repeat split;
    try apply attempts_io; by repeat constructor.
Qed.

(** C10. The call [panic('Warp Journal is already running.')] is never
    executed: any statement in its place leaves the loop body unchanged, no
    run of [get_usable_port] logs or shows that message, and a run whose
    probe is answered returns the probed port. *)
Theorem already_running_panic_is_dead (w : World) :
  (forall stmt port, try_port_with w stmt port = try_port w port)
  /\ (forall ev, ev ∈ (get_usable_port w).1 ->
        ev <> Log ERROR "Warp Journal is already running."
        /\ ev <> ErrorDialog "Warp Journal is already running.")
  /\ (forall pre p post,
        candidate_ports = pre ++ p :: post ->
        Forall (foreign w) pre ->
        bind_fails w "localhost" p = true ->
        http_get w (probe_url p) = None ->
        get_usable_port w = (attempts pre ++ attempt p, Normal (VInt p))).
Proof.
  split; [apply try_port_with_eq|]. split.
  - intros ev Hev.
    destruct (for_ candidate_ports (try_port w)) as [t c] eqn:Hfor.
    pose proof (scan_end_io w _ _ (for_try_port_end w candidate_ports)) as Hio.
    rewrite Hfor in Hio. simpl in Hio.
    rewrite (get_usable_port_of_scan w t c Hfor) in Hev.
    assert (Hcases : ev ∈ t \/ ev ∈ (panic w "No suitable port found.").1).
    { destruct c; simpl in Hev; rewrite ?elem_of_app in Hev; tauto. }
    destruct Hcases as [Hin|Hin].
    + rewrite Forall_forall in Hio. specialize (Hio ev Hin).
      split; intros ->; exact Hio.
    + rewrite panic_eq in Hin. simpl in Hin.
      destruct (tkinter w); simpl in Hin;
        rewrite ?elem_of_cons in Hin; rewrite elem_of_nil in Hin;
        split; intros ->; intuition discriminate.
  - intros pre p post Hsplit Hpre Hb Hg.
    apply (get_usable_port_of_scan w _ (Return (VInt p))).
    rewrite Hsplit, (for_try_port_foreign w pre _ Hpre). simpl for_.
    by rewrite (try_port_answered w p Hb Hg).
Qed.

Lemma already_running_panic_is_dead_witness :
  get_usable_port second_instance
  = (attempts [6193] ++ attempt 6194, Normal (VInt 6194))
  /\ Log ERROR "Warp Journal is already running."
     ∉ (get_usable_port second_instance).1.
Proof.
  destruct (already_running_panic_is_dead second_instance)
    as (_ & Hnever & Hrun).
  split.
  - apply (Hrun [6193] 6194 [6195; 6196; 6197; 6198; 6199; 6200; 6201; 6202]).
    + reflexivity.
    + all_foreign.
    + reflexivity.
    + vm_compute. reflexivity.
  - intros Hin. by destruct (Hnever _ Hin) as [Hne _].
Defined.

(** ** The game directory *)

Lemma path_of_games (w : World) : path_of w "Games" = ["Games"].
Proof. unfold path_of, is_sep. by destruct (String.eqb (platform w) "win32"). Qed.

Lemma joinpath_games (w : World) (p : Path) : joinpath w p "Games" = p ++ ["Games"].
Proof. unfold joinpath. by rewrite path_of_games. Qed.

Lemma in_environ_lookup (w : World) (k : string) :
  in_environ w k = bool_decide (is_Some (environ w !! k)).
Proof. unfold in_environ. by destruct (environ w !! k). Qed.

(** C6. When [GAME_PATH] is set, [get_game_path] returns the [Games]
    subdirectory of the override path if that subdirectory exists and the
    override path itself otherwise.  Nothing is logged, and the result
    depends on the host only through the override, the path flavour and
    the existence of the subdirectory: neither the platform-specific lookups
    nor a check of the override path itself take part. *)
Theorem override_is_authoritative (w : World) (override : string) :
  environ w !! "GAME_PATH" = Some override ->
  let game_path := path_of w override in
  let sub_path := game_path ++ ["Games"] in
  get_game_path w
  = ([], Normal (VPath (if exists_ w sub_path then sub_path else game_path)))
  /\ (forall w',
        environ w' !! "GAME_PATH" = Some override ->
        platform w' = platform w ->
        exists_ w' sub_path = exists_ w sub_path ->
        get_game_path w' = get_game_path w).
Proof.
  intros Henv game_path sub_path.
  assert (Heq : forall v, environ v !! "GAME_PATH" = Some override ->
    get_game_path v
    = ([], Normal (VPath (if exists_ v (path_of v override ++ ["Games"])
                          then path_of v override ++ ["Games"]
                          else path_of v override)))).
  { intros v Hv. unfold get_game_path, in_environ, environ_get.
    rewrite Hv. cbn. by rewrite joinpath_games. }
  split; [by apply Heq|].
  intros w' Henv' Hplat Hex. rewrite (Heq w Henv), (Heq w' Henv').
  assert (Hpath : path_of w' override = game_path).
  { unfold game_path, path_of, is_sep. by rewrite Hplat. }
  rewrite Hpath. fold sub_path. by rewrite Hex.
Qed.

Lemma override_is_authoritative_witness :
  get_game_path override_with_games
  = ([], Normal (VPath ["/"; "opt"; "hsr"; "Games"])).
Proof.
  destruct (override_is_authoritative override_with_games "/opt/hsr" eq_refl)
    as [Hres _].
  exact Hres.
Defined.

Example override_without_games :
  get_game_path override_dangling = ([], Normal (VPath ["/"; "opt"; "hsr"])).
Proof. reflexivity. Qed.

(** ** The log scan *)

Section Regex.

Lemma append_nil_l (s : string) : "" +:+ s = s.
Proof. reflexivity. Qed.

Lemma append_cons (c : ascii) (a s : string) :
  String c a +:+ s = String c (a +:+ s).
Proof. reflexivity. Qed.



Lemma match_atoms_literal_complete (p rest : string) :
  Re.match_atoms (Re.atoms p) (p +:+ rest) = Some rest
  \/ Str.contains Str.newline p = true.
Proof.
  induction p as [|c p IH]; [by left|].
  rewrite append_cons. simpl.
  destruct (Ascii.eqb_spec c Str.newline) as [->|Hnl]; [by right|].
  destruct IH as [IH|IH]; [|by right]. left.
  unfold Re.atom_of. destruct (Ascii.eqb c "."); simpl.
  - apply Ascii.eqb_neq in Hnl. by rewrite Hnl.
  - by rewrite Ascii.eqb_refl.
Qed.


(** The group is the longest there is: no longer run of non-newline
    characters is followed by a match of the rest of the pattern. *)
Lemma match_group_complete (p : list Re.atom) (g rest : string) :
  g <> EmptyString -> Str.contains Str.newline g = false ->
  is_Some (Re.match_atoms p rest) ->
  exists g', Re.match_group p (g +:+ rest) = Some g'
             /\ (String.length g <= String.length g')%nat.
Proof.
  induction g as [|c g IH]; [done|]. intros _ Hnl Hrest.
  rewrite append_cons. simpl in *.
  destruct (Ascii.eqb c Str.newline) eqn:Hc; [done|]. simpl.
  destruct g as [|d g].
  - rewrite append_nil_l. destruct (Re.match_group p rest) as [g'|].
    + exists (String c g'). split; [done|]. simpl. lia.
    + destruct Hrest as [r ->]. by exists (String c EmptyString).
  - destruct (IH ltac:(done) Hnl Hrest) as (g' & -> & Hlen).
    exists (String c g'). split; [done|]. simpl in *. lia.
Qed.





End Regex.








(** Returning what a called function returned. *)
Lemma call_call (body : comp unit) :
  call (r <- call body ;; return_ r) = call body.
Proof. destruct body as [t [a|v| |e]]; cbn; by rewrite ?app_nil_r. Qed.






Example scenario_log_line :
  Re.search log_regex
    (eol "Loading player data from /opt/games/StarRail/StarRail_Data/data.unity3d")
  = Some "/opt/games/StarRail".
Proof. by vm_compute. Qed.

(** ** The cache file *)




(** ** The launcher configuration *)

Lemma path_of_launcher_config (w : World) :
  path_of w "~/.local/share/honkers-railway-launcher/config.json"
  = ["~"; ".local"; "share"; "honkers-railway-launcher"; "config.json"].
Proof. unfold path_of, is_sep. by destruct (String.eqb (platform w) "win32"). Qed.

Arguments getitem3 : simpl never.
Arguments path_of : simpl never.

Lemma bind_ret {A B} (a : A) (k : A -> comp B) : bind (ret a) k = k a.
Proof. unfold bind, ret, after. simpl. by destruct (k a). Qed.

(** What [get_game_path_linux] does with a configuration it could load. *)
Lemma get_game_path_linux_eq (w : World) (h : string) (config : json) :
  home w = Some h ->
  kind_of w (launcher_config w h) = Some KFile ->
  json_of w (launcher_config w h) = Some config ->
  get_game_path_linux w =
    call (
      try_except
        (glob <- region_path config "global" ;;
         global_path <- Path_of_json w glob ;;
         when (exists_ w global_path) (return_ (VPath global_path)) ;;
         china <- region_path config "china" ;;
         china_path <- Path_of_json w china ;;
         when (exists_ w china_path) (return_ (VPath china_path)))
        [KeyError]
        pass ;;
      emit (Log DEBUG "game folder configuration in launcher could not be found") ;;
      return_ VNone)%comp.
Proof.
  intros Hhome Hkind Hjson. unfold get_game_path_linux.
  rewrite path_of_launcher_config. unfold expanduser. rewrite Hhome, bind_ret.
  change (path_of w h ++ _) with (launcher_config w h).
  unfold exists_ at 1. rewrite Hkind.
  change (when (negb true) _) with (ret tt). rewrite bind_ret.
  unfold with_, open_, json_load. rewrite Hkind, bind_ret, Hjson, bind_ret.
  reflexivity.
Qed.

Lemma get_game_path_linux_absent (w : World) (h : string) :
  home w = Some h ->
  kind_of w (launcher_config w h) = None ->
  get_game_path_linux w
  = ([Log DEBUG "launcher configuration not found"], Normal VNone).
Proof.
  intros Hhome Hkind. unfold get_game_path_linux.
  rewrite path_of_launcher_config. unfold expanduser. rewrite Hhome, bind_ret.
  change (path_of w h ++ _) with (launcher_config w h).
  unfold exists_ at 1. by rewrite Hkind.
Qed.

(** On Linux without an override [get_game_path] is the launcher lookup. *)
Lemma get_game_path_linux_dispatch (w : World) :
  environ w !! "GAME_PATH" = None -> platform w = "linux" ->
  get_game_path w = get_game_path_linux w.
Proof.
  intros Henv Hplat. unfold get_game_path, in_environ. rewrite Henv, Hplat.
  cbn -[get_game_path_linux]. apply call_call.
Qed.

(** C7. The Linux lookup returns [None] when the launcher configuration is
    absent.  With a configuration it returns the [global] path if that
    exists on disk, else the [china] path if that exists on disk, and [None]
    when neither exists or when a key on the way to the path that is being
    read is missing.  On Linux without an override this lookup is
    [get_game_path]. *)
Theorem launcher_config_picks_region (w : World) (h : string) :
  home w = Some h ->
  let cfg := launcher_config w h in
  (kind_of w cfg = None ->
   get_game_path_linux w
   = ([Log DEBUG "launcher configuration not found"], Normal VNone))
  /\ (forall config,
        kind_of w cfg = Some KFile -> json_of w cfg = Some config ->
        (region_path config "global" = raise KeyError ->
         get_game_path_linux w = not_configured)
        /\ (forall g,
              region_path config "global" = ret (JStr g) ->
              (exists_ w (path_of w g) = true ->
               get_game_path_linux w = ([], Normal (VPath (path_of w g))))
              /\ (exists_ w (path_of w g) = false ->
                  (region_path config "china" = raise KeyError ->
                   get_game_path_linux w = not_configured)
                  /\ (forall c,
                        region_path config "china" = ret (JStr c) ->
                        (exists_ w (path_of w c) = true ->
                         get_game_path_linux w
                         = ([], Normal (VPath (path_of w c))))
                        /\ (exists_ w (path_of w c) = false ->
                            get_game_path_linux w = not_configured)))))
  /\ (environ w !! "GAME_PATH" = None -> platform w = "linux" ->
      get_game_path w = get_game_path_linux w).
Proof.
  intros Hhome cfg.
  split; [by apply get_game_path_linux_absent|].
  split; [|apply get_game_path_linux_dispatch].
  intros config Hkind Hjson.
  rewrite (get_game_path_linux_eq w h config Hhome Hkind Hjson).
  split; [by intros ->|].
  intros g ->. cbn -[region_path]. split; [by intros ->|].
  intros ->. cbn -[region_path]. split; [by intros ->|].
  intros c ->. cbn. split; by intros ->.
Qed.

Lemma launcher_config_picks_region_witness :
  get_game_path_linux china_only
  = ([], Normal (VPath ["/"; "games"; "hsr-china"]))
  /\ get_game_path china_only = get_game_path_linux china_only.
Proof.
  destruct (launcher_config_picks_region china_only "/home/trailblazer" eq_refl)
    as (_ & Hconfig & Hdispatch).
  split; [|by apply Hdispatch].
  destruct (Hconfig both_regions eq_refl eq_refl) as [_ Hglobal].
  destruct (Hglobal "/games/hsr-global" eq_refl) as [_ Hmissing].
  destruct (Hmissing eq_refl) as [_ Hchina].
  destruct (Hchina "/games/hsr-china" eq_refl) as [Hfound _].
  by apply Hfound.
Defined.

(** A configuration without the [global] key yields [None] even though the
    [china] installation exists: the [KeyError] ends the [try] block. *)
Example china_without_global_key :
  get_game_path_linux
    (machine "linux" ∅ [["/"; "games"; "hsr-china"]] [config_json] []
       (Some (JObj [("game",
                     JObj [("path",
                            JObj [("china", JStr "/games/hsr-china")])])])))
  = not_configured.
Proof. by vm_compute. Qed.

(** ** From the game directory to the cache file *)

Lemma bind_normal {A B} (t : list event) (a : A) (k : A -> comp B) :
  bind (t, Normal a) k = after t (k a).
Proof. reflexivity. Qed.

Lemma bind_raise {A B} (t : list event) (e : exn) (k : A -> comp B) :
  bind (t, Raise e) k = (t, Raise e).
Proof. reflexivity. Qed.

Lemma after_nil {A} (m : comp A) : after [] m = m.
Proof. by destruct m. Qed.

Lemma call_after (t : list event) (body : comp unit) :
  call (after t body) = after t (call body).
Proof. by destruct body as [t' [a|v| |e]]. Qed.

Lemma joinpath_cache_data (w : World) (p : Path) :
  joinpath w p "Cache/Cache_Data/data_2" = p ++ ["Cache"; "Cache_Data"; "data_2"].
Proof.
  unfold joinpath, path_of, is_sep.
  by destruct (String.eqb (platform w) "win32").
Qed.

Lemma get_web_cache_path_missing (w : World) (g : Path) :
  kind_of w (g ++ ["StarRail_Data"; "webCaches"]) = None ->
  get_web_cache_path w (VPath g) = ([], Raise (raised FileNotFoundError)).
Proof.
  intros Hkind. unfold get_web_cache_path. cbn [truediv].
  rewrite bind_ret, joinpath_web_caches. unfold iterdir. by rewrite Hkind.
Qed.

Lemma get_web_cache_path_file (w : World) (g : Path) :
  kind_of w (g ++ ["StarRail_Data"; "webCaches"]) = Some KFile ->
  get_web_cache_path w (VPath g) = ([], Raise (raised NotADirectoryError)).
Proof.
  intros Hkind. unfold get_web_cache_path. cbn [truediv].
  rewrite bind_ret, joinpath_web_caches. unfold iterdir. by rewrite Hkind.
Qed.

(** [get_cache_path] after [get_game_path] returned the [Path] [g]: what
    happens is decided by [get_web_cache_path]. *)
Lemma get_cache_path_raises (w : World) (t : list event) (g : Path) (e : exn) :
  get_game_path w = (t, Normal (VPath g)) ->
  get_web_cache_path w (VPath g) = ([], Raise e) ->
  get_cache_path w = (t, Raise e).
Proof.
  intros Hgame Hweb. unfold get_cache_path.
  rewrite Hgame, bind_normal, call_after.
  change (when (negb (truthy (VPath g))) _) with (ret tt).
  rewrite bind_ret, Hweb, bind_raise. unfold after. simpl.
  by rewrite app_nil_r.
Qed.

Lemma get_cache_path_no_version (w : World) (t : list event) (g : Path) :
  get_game_path w = (t, Normal (VPath g)) ->
  get_web_cache_path w (VPath g) = ([], Normal VNone) ->
  get_cache_path w = (t ++ [no_web_cache_log], Normal VNone).
Proof.
  intros Hgame Hweb. unfold get_cache_path.
  rewrite Hgame, bind_normal, call_after.
  change (when (negb (truthy (VPath g))) _) with (ret tt).
  by rewrite bind_ret, Hweb, bind_normal, after_nil.
Qed.

(** What [get_cache_path] does once the newest version directory [p] is
    found. *)
Lemma get_cache_path_found (w : World) (t : list event) (g p : Path) :
  get_game_path w = (t, Normal (VPath g)) ->
  get_web_cache_path w (VPath g) = ([], Normal (VPath p)) ->
  get_cache_path w =
    after (t ++ [Log DEBUG ("cache path is: " +:+ path_str w (data_2 p))])
      (call (
         when (negb (exists_ w (data_2 p)))
           (emit (Log DEBUG "cache file does not exist") ;;
            return_ VNone) ;;
         if String.eqb (platform w) "win32" then
           try_except
             (data_path <- get_data_path w ;;
              copy_path <- truediv w data_path "data_2" ;;
              check_output w
                ("powershell.exe -Command " +:+ String Str.dquote
                   ("Copy-Item '" +:+ path_str w (data_2 p) +:+ "' '"
                    +:+ path_str w copy_path +:+ "'"
                    +:+ String Str.dquote "")) ;;
              return_ (VPath copy_path))
             [FileNotFoundError; CalledProcessError; OSError]
             (emit (Log ERROR "Could not create copy of cache file") ;;
              return_ VNone)
         else
           return_ (VPath (data_2 p))))%comp.
Proof.
  intros Hgame Hweb. unfold get_cache_path.
  rewrite Hgame, bind_normal, call_after.
  change (when (negb (truthy (VPath g))) _) with (ret tt).
  rewrite bind_ret, Hweb, bind_normal, after_nil.
  change (when (negb (truthy (VPath p))) _) with (ret tt).
  rewrite bind_ret. cbn [truediv]. rewrite bind_ret, joinpath_cache_data.
  fold (data_2 p). unfold emit at 1. rewrite bind_normal, call_after.
  unfold after. simpl. by rewrite <- app_assoc.
Qed.

(** C8, where the code departs from it.  When the web-cache root does not
    exist, [get_cache_path] does not return [None]: the [FileNotFoundError]
    of [iterdir] leaves [get_web_cache_path] and [get_cache_path]. *)
Theorem missing_web_cache_root_raises (w : World) (t : list event) (g : Path) :
  get_game_path w = (t, Normal (VPath g)) ->
  kind_of w (joinpath w g "StarRail_Data/webCaches/") = None ->
  get_web_cache_path w (VPath g) = ([], Raise (raised FileNotFoundError))
  /\ get_cache_path w = (t, Raise (raised FileNotFoundError)).
Proof.
  intros Hgame Hkind. rewrite joinpath_web_caches in Hkind.
  pose proof (get_web_cache_path_missing w g Hkind) as Hweb.
  split; [done|]. by apply (get_cache_path_raises w t g).
Qed.

Lemma missing_web_cache_root_raises_witness :
  get_cache_path fresh_install = ([], Raise (raised FileNotFoundError)).
Proof.
  by destruct (missing_web_cache_root_raises fresh_install [] hsr_dir
                 eq_refl eq_refl) as [_ Hcache].
Defined.

(** ** The data directory *)

Lemma mkdir_eq (w : World) (p : Path) :
  parents_ok w p ->
  mkdir w p = match kind_of w p with
              | Some KFile => raise FileExistsError
              | Some KDir => pass
              | None => emit (Mkdir p)
              end.
Proof.
  intros Hok. unfold mkdir.
  destruct (existsb (fun i : nat => is_file w (take i p))
              (seq 1 (length p - 1))) eqn:Hex; [|done].
  apply existsb_exists in Hex as (i & Hi & Hfile).
  apply in_seq in Hi. unfold is_file in Hfile.
  destruct (kind_of w (take i p)) as [[|]|] eqn:Hk; try done.
  destruct (Hok i); [lia|done].
Qed.

Lemma joinpath_warp_journal (w : World) (p : Path) :
  joinpath w p "warp-journal" = p ++ ["warp-journal"].
Proof.
  unfold joinpath, path_of, is_sep.
  by destruct (String.eqb (platform w) "win32").
Qed.

Lemma path_of_linux_default (w : World) :
  path_of w "~/.local/share/warp-journal"
  = ["~"; ".local"; "share"; "warp-journal"].
Proof. unfold path_of, is_sep. by destruct (String.eqb (platform w) "win32"). Qed.

Lemma path_of_darwin_default (w : World) :
  path_of w "~/Library/Application Support/warp-journal"
  = ["~"; "Library"; "Application Support"; "warp-journal"].
Proof. unfold path_of, is_sep. by destruct (String.eqb (platform w) "win32"). Qed.

(** What [get_data_path] does once the directory is chosen: the end of the
    function from [path.mkdir] on. *)
Lemma ensure_dir_eq (w : World) (p : Path) :
  parents_ok w p ->
  call (try_except (mkdir w p) [FileExistsError]
          (panic w (path_str w p +:+ " already exists, but is a file.") ;;
           pass) ;;
        return_ (VPath p))%comp
  = match kind_of w p with
    | Some KFile => panic w (is_a_file w p)
    | Some KDir => ([], Normal (VPath p))
    | None => ([Mkdir p], Normal (VPath p))
    end.
Proof.
  intros Hok. rewrite (mkdir_eq w p Hok). fold (is_a_file w p).
  destruct (kind_of w p) as [[|]|]; [|done..].
  rewrite panic_eq. reflexivity.
Qed.

Lemma get_data_path_win32 (w : World) (appdata : string) :
  platform w = "win32" ->
  environ w !! "APPDATA" = Some appdata ->
  get_data_path w
  = call (try_except (mkdir w (path_of w appdata ++ ["warp-journal"]))
            [FileExistsError]
            (panic w (path_str w (path_of w appdata ++ ["warp-journal"])
                      +:+ " already exists, but is a file.") ;;
             pass) ;;
          return_ (VPath (path_of w appdata ++ ["warp-journal"])))%comp.
Proof.
  intros Hplat Henv. unfold get_data_path. rewrite Hplat.
  change (String.eqb "win32" "win32") with true. cbv iota.
  unfold environ_get. rewrite Henv, bind_ret, bind_ret, joinpath_warp_journal.
  reflexivity.
Qed.

Lemma get_data_path_xdg (w : World) (xdg : string) :
  platform w = "linux" \/ platform w = "darwin" ->
  environ w !! "XDG_DATA_HOME" = Some xdg ->
  get_data_path w
  = call (try_except (mkdir w (path_of w xdg ++ ["warp-journal"]))
            [FileExistsError]
            (panic w (path_str w (path_of w xdg ++ ["warp-journal"])
                      +:+ " already exists, but is a file.") ;;
             pass) ;;
          return_ (VPath (path_of w xdg ++ ["warp-journal"])))%comp.
Proof.
  intros Hplat Henv. unfold get_data_path, in_environ, environ_get.
  destruct Hplat as [-> | ->]; rewrite Henv.
  - change (String.eqb "linux" "win32") with false.
    change (String.eqb "linux" "linux") with true. cbv iota.
    by rewrite bind_ret, bind_ret, joinpath_warp_journal.
  - change (String.eqb "darwin" "win32") with false.
    change (String.eqb "darwin" "linux") with false.
    change (String.eqb "darwin" "darwin") with true. cbv iota.
    by rewrite bind_ret, bind_ret, joinpath_warp_journal.
Qed.

Lemma get_data_path_home (w : World) (h : string) (rest : list string) :
  (platform w = "linux" /\ rest = [".local"; "share"; "warp-journal"])
  \/ (platform w = "darwin"
      /\ rest = ["Library"; "Application Support"; "warp-journal"]) ->
  environ w !! "XDG_DATA_HOME" = None ->
  home w = Some h ->
  get_data_path w
  = call (try_except (mkdir w (path_of w h ++ rest))
            [FileExistsError]
            (panic w (path_str w (path_of w h ++ rest)
                      +:+ " already exists, but is a file.") ;;
             pass) ;;
          return_ (VPath (path_of w h ++ rest)))%comp.
Proof.
  intros Hplat Henv Hhome. unfold get_data_path, in_environ.
  destruct Hplat as [[-> ->] | [-> ->]]; rewrite Henv.
  - change (String.eqb "linux" "win32") with false.
    change (String.eqb "linux" "linux") with true. cbv iota.
    rewrite path_of_linux_default. unfold expanduser.
    by rewrite Hhome, bind_ret, bind_ret.
  - change (String.eqb "darwin" "win32") with false.
    change (String.eqb "darwin" "linux") with false.
    change (String.eqb "darwin" "darwin") with true. cbv iota.
    rewrite path_of_darwin_default. unfold expanduser.
    by rewrite Hhome, bind_ret, bind_ret.
Qed.

(** X1. On Windows the data directory is [%APPDATA%/warp-journal], whatever
    [XDG_DATA_HOME] says: it is created when nothing is there, used as it
    is when it is a directory, and a fatal error when it is a file. *)
Theorem data_path_on_windows (w : World) (appdata : string) :
  platform w = "win32" ->
  environ w !! "APPDATA" = Some appdata ->
  let dir := path_of w appdata ++ ["warp-journal"] in
  parents_ok w dir ->
  (kind_of w dir = None -> get_data_path w = ([Mkdir dir], Normal (VPath dir)))
  /\ (kind_of w dir = Some KDir -> get_data_path w = ([], Normal (VPath dir)))
  /\ (kind_of w dir = Some KFile ->
      get_data_path w
      = (Log ERROR (is_a_file w dir)
           :: (if tkinter w then [ErrorDialog (is_a_file w dir)] else [])
           ++ [Log INFO "Quitting"],
         Raise (Exn SystemExit (Some 1)))).
Proof.
  intros Hplat Henv dir Hok.
  rewrite (get_data_path_win32 w appdata Hplat Henv). fold dir.
  rewrite (ensure_dir_eq w dir Hok).
  repeat split; intros ->; [done..|]. by rewrite panic_eq.
Qed.

Lemma data_path_on_windows_witness :
  get_data_path
    (windows_pc {[ "APPDATA" := "C:\Users\tb\AppData\Roaming";
                   "XDG_DATA_HOME" := "D:\xdg" ]} [roaming] [])
  = ([Mkdir (roaming ++ ["warp-journal"])],
     Normal (VPath (roaming ++ ["warp-journal"]))).
Proof.
  set (w := windows_pc _ _ _).
  assert (Hok : parents_ok w (path_of w "C:\Users\tb\AppData\Roaming"
                              ++ ["warp-journal"])).
  { intros i Hi. vm_compute. by repeat (destruct i as [|i]; try done). }
  destruct (data_path_on_windows w "C:\Users\tb\AppData\Roaming"
              eq_refl eq_refl Hok) as [Hnew _].
  by apply Hnew.
Defined.

(** X2. On Linux and macOS a set [XDG_DATA_HOME] decides the data
    directory: it is [$XDG_DATA_HOME/warp-journal], and the home directory
    is not consulted. *)
Theorem data_path_follows_xdg (w : World) (xdg : string) :
  platform w = "linux" \/ platform w = "darwin" ->
  environ w !! "XDG_DATA_HOME" = Some xdg ->
  let dir := path_of w xdg ++ ["warp-journal"] in
  parents_ok w dir ->
  (kind_of w dir = None -> get_data_path w = ([Mkdir dir], Normal (VPath dir)))
  /\ (kind_of w dir = Some KDir -> get_data_path w = ([], Normal (VPath dir)))
  /\ (kind_of w dir = Some KFile ->
      (get_data_path w).2 = Raise (Exn SystemExit (Some 1))).
Proof.
  intros Hplat Henv dir Hok.
  rewrite (get_data_path_xdg w xdg Hplat Henv). fold dir.
  rewrite (ensure_dir_eq w dir Hok).
  repeat split; intros ->; [done..|]. by rewrite panic_eq.
Qed.

Lemma data_path_follows_xdg_witness :
  get_data_path mac_with_xdg
  = ([], Normal (VPath ["/"; "Users"; "tb"; ".data"; "warp-journal"])).
Proof.
  assert (Hok : parents_ok mac_with_xdg
                  (path_of mac_with_xdg "/Users/tb/.data" ++ ["warp-journal"])).
  { intros i Hi. vm_compute. by repeat (destruct i as [|i]; try done). }
  destruct (data_path_follows_xdg mac_with_xdg "/Users/tb/.data"
              (or_intror eq_refl) eq_refl Hok) as (_ & Hdir & _).
  by apply Hdir.
Defined.

(** X3. Without [XDG_DATA_HOME] the data directory is
    [~/.local/share/warp-journal] on Linux and
    [~/Library/Application Support/warp-journal] on macOS; when the home
    directory cannot be determined the [RuntimeError] of [expanduser]
    leaves the function and nothing is created. *)
Theorem data_path_home_default (w : World) (rest : list string) :
  (platform w = "linux" /\ rest = [".local"; "share"; "warp-journal"])
  \/ (platform w = "darwin"
      /\ rest = ["Library"; "Application Support"; "warp-journal"]) ->
  environ w !! "XDG_DATA_HOME" = None ->
  (home w = None -> get_data_path w = ([], Raise (raised RuntimeError)))
  /\ (forall h, home w = Some h ->
        let dir := path_of w h ++ rest in
        parents_ok w dir ->
        (kind_of w dir = None ->
         get_data_path w = ([Mkdir dir], Normal (VPath dir)))
        /\ (kind_of w dir = Some KDir ->
            get_data_path w = ([], Normal (VPath dir)))).
Proof.
  intros Hplat Henv. split.
  - intros Hhome. unfold get_data_path, in_environ.
    destruct Hplat as [[-> _] | [-> _]]; rewrite Henv.
    + change (String.eqb "linux" "win32") with false.
      change (String.eqb "linux" "linux") with true. cbv iota.
      rewrite path_of_linux_default. unfold expanduser. by rewrite Hhome.
    + change (String.eqb "darwin" "win32") with false.
      change (String.eqb "darwin" "linux") with false.
      change (String.eqb "darwin" "darwin") with true. cbv iota.
      rewrite path_of_darwin_default. unfold expanduser. by rewrite Hhome.
  - intros h Hhome dir Hok.
    rewrite (get_data_path_home w h rest Hplat Henv Hhome). fold dir.
    rewrite (ensure_dir_eq w dir Hok). by split; intros ->.
Qed.

Lemma data_path_home_default_witness :
  get_data_path (machine "linux" ∅ [] [] [] None)
  = ([Mkdir ["/"; "home"; "trailblazer"; ".local"; "share"; "warp-journal"]],
     Normal (VPath ["/"; "home"; "trailblazer"; ".local"; "share";
                    "warp-journal"])).
Proof.
  set (w := machine "linux" ∅ [] [] [] None).
  destruct (data_path_home_default w [".local"; "share"; "warp-journal"]
              (or_introl (conj eq_refl eq_refl)) eq_refl) as [_ Hhome].
  assert (Hok : parents_ok w (path_of w "/home/trailblazer"
                              ++ [".local"; "share"; "warp-journal"])).
  { intros i Hi. vm_compute. by repeat (destruct i as [|i]; try done). }
  destruct (Hhome "/home/trailblazer" eq_refl Hok) as [Hnew _].
  by apply Hnew.
Defined.

(** X4. On any platform other than Windows, Linux and macOS
    [get_data_path] is fatal: the error is logged, nothing is created, and
    the process exits with status 1.  On Windows without [APPDATA] the
    [KeyError] of the environment lookup leaves the function instead,
    unlogged. *)
Theorem data_path_failures (w : World) :
  (platform w <> "win32" -> platform w <> "linux" -> platform w <> "darwin" ->
   get_data_path w
   = (Log ERROR unsupported_platform
        :: (if tkinter w then [ErrorDialog unsupported_platform] else [])
        ++ [Log INFO "Quitting"],
      Raise (Exn SystemExit (Some 1))))
  /\ (platform w = "win32" -> environ w !! "APPDATA" = None ->
      get_data_path w = ([], Raise (raised KeyError))).
Proof.
  split.
  - intros H1 H2 H3. unfold get_data_path.
    apply String.eqb_neq in H1, H2, H3. rewrite H1, H2, H3.
    fold unsupported_platform. rewrite panic_eq. reflexivity.
  - intros Hplat Henv. unfold get_data_path, environ_get.
    rewrite Hplat, Henv. reflexivity.
Qed.

Lemma data_path_failures_witness :
  (get_data_path (machine "freebsd" ∅ [] [] [] None)).2
  = Raise (Exn SystemExit (Some 1))
  /\ get_data_path (windows_pc ∅ [] []) = ([], Raise (raised KeyError)).
Proof.
  split.
  - destruct (data_path_failures (machine "freebsd" ∅ [] [] [] None))
      as [Hfatal _].
    by rewrite Hfatal.
  - destruct (data_path_failures (windows_pc ∅ [] [])) as [_ Hkey].
    by apply Hkey.
Defined.

(** ** Logging *)

(** X5. [set_up_logging] logs at debug level exactly when [DEBUG] is in the
    environment, whatever its value, and at info level otherwise; the file
    [warp-journal.log] in the data directory and the stdout handler get the
    same level and format, and the start is logged after both.  When the
    data directory cannot be had, nothing is configured. *)
Theorem logging_level_follows_debug_variable
    (w : World) (t : list event) (dir : Path) :
  get_data_path w = (t, Normal (VPath dir)) ->
  let lvl := match environ w !! "DEBUG" with Some _ => DEBUG | None => INFO end in
  set_up_logging w
  = (t ++ [BasicConfig (dir ++ ["warp-journal.log"]) log_format lvl;
           AddHandler "stdout" log_format lvl;
           Log INFO "Starting Warp Journal"],
     Normal VNone).
Proof.
  intros Hdata lvl. unfold set_up_logging. rewrite Hdata.
  rewrite bind_normal, call_after. cbn [truediv]. rewrite bind_ret.
  assert (Hjoin : joinpath w dir "warp-journal.log" = dir ++ ["warp-journal.log"]).
  { unfold joinpath, path_of, is_sep.
    by destruct (String.eqb (platform w) "win32"). }
  rewrite Hjoin. unfold in_environ. fold log_format. subst lvl.
  by destruct (environ w !! "DEBUG").
Qed.

Lemma set_up_logging_aborts (w : World) (t : list event) (e : exn) :
  get_data_path w = (t, Raise e) -> set_up_logging w = (t, Raise e).
Proof. intros Hdata. unfold set_up_logging. by rewrite Hdata. Qed.

Lemma logging_level_follows_debug_variable_witness :
  set_up_logging
    (machine "linux" {[ "DEBUG" := "0" ]}
       [["/"; "home"; "trailblazer"; ".local"; "share"; "warp-journal"]]
       [] [] None)
  = ([BasicConfig ["/"; "home"; "trailblazer"; ".local"; "share";
                   "warp-journal"; "warp-journal.log"] log_format DEBUG;
      AddHandler "stdout" log_format DEBUG;
      Log INFO "Starting Warp Journal"],
     Normal VNone).
Proof.
  set (w := machine _ _ _ _ _ _).
  assert (Hdata : get_data_path w
                  = ([], Normal (VPath ["/"; "home"; "trailblazer"; ".local";
                                        "share"; "warp-journal"])))
    by by vm_compute.
  exact (logging_level_follows_debug_variable w [] _ Hdata).
Defined.

(** ** The cache file: soft misses, the result, the Windows copy *)

Lemma call_cases (body : comp unit) :
  (exists t v, call body = (t, Normal v)) \/ (exists t e, call body = (t, Raise e)).
Proof. destruct body as [t [a|v| |e]]; simpl; eauto. Qed.

Lemma get_game_path_cases (w : World) :
  (exists t v, get_game_path w = (t, Normal v))
  \/ (exists t e, get_game_path w = (t, Raise e)).
Proof. unfold get_game_path. apply call_cases. Qed.

Lemma get_cache_path_none (w : World) (t : list event) (v : value) :
  get_game_path w = (t, Normal v) -> truthy v = false ->
  get_cache_path w = (t, Normal VNone).
Proof.
  intros Hgame Hv. unfold get_cache_path.
  rewrite Hgame, bind_normal, call_after, Hv. simpl.
  unfold after. simpl. by rewrite app_nil_r.
Qed.

Lemma get_cache_path_game_raises (w : World) (t : list event) (e : exn) :
  get_game_path w = (t, Raise e) -> get_cache_path w = (t, Raise e).
Proof. intros Hgame. unfold get_cache_path. by rewrite Hgame. Qed.

Lemma get_web_cache_path_not_path (w : World) (v : value) :
  (forall g, v <> VPath g) ->
  get_web_cache_path w v = ([], Raise (raised TypeError)).
Proof. intros Hv. destruct v; try done. by destruct (Hv p). Qed.

Lemma get_cache_path_web_raises (w : World) (t : list event) (v : value) (e : exn) :
  get_game_path w = (t, Normal v) -> truthy v = true ->
  get_web_cache_path w v = ([], Raise e) ->
  get_cache_path w = (t, Raise e).
Proof.
  intros Hgame Hv Hweb. unfold get_cache_path.
  rewrite Hgame, bind_normal, call_after, Hv.
  change (when (negb true) _) with (ret tt).
  rewrite bind_ret, Hweb, bind_raise. unfold after. simpl.
  by rewrite app_nil_r.
Qed.

Lemma version_dirs_nil (w : World) (root : Path) :
  root <> [] ->
  (forall n, n ∈ listdir w root ->
     is_dir w (root ++ [n]) && Str.contains "." n = false) ->
  version_dirs w root = [].
Proof.
  intros Hroot Hnone.
  destruct (version_dirs w root) as [|p l] eqn:E; [done|].
  assert (Hp : p ∈ version_dirs w root) by (rewrite E; left).
  apply elem_of_version_dirs in Hp as (n & _ & Hn & Hd & Hc); [|done].
  specialize (Hnone n Hn). by rewrite Hd, Hc in Hnone.
Qed.

Lemma web_caches_nonempty (g : Path) : web_caches g <> [].
Proof. unfold web_caches. by destruct g. Qed.

(** X6. The soft misses of [get_cache_path].  It returns [None] when
    [get_game_path] found nothing; when the web-cache root is a directory
    without any directory entry whose name has a dot (logged at debug
    level); and, on every platform, when the newest version directory has no
    [Cache/Cache_Data/data_2] (logged at debug level).  It logs nothing above
    debug level and touches neither the disk nor the shell. *)
Theorem cache_soft_misses (w : World) (t : list event) :
  (get_game_path w = (t, Normal VNone) -> get_cache_path w = (t, Normal VNone))
  /\ (forall g,
        get_game_path w = (t, Normal (VPath g)) ->
        kind_of w (web_caches g) = Some KDir ->
        (forall n, n ∈ listdir w (web_caches g) ->
           is_dir w (web_caches g ++ [n]) && Str.contains "." n = false) ->
        get_cache_path w = (t ++ [no_web_cache_log], Normal VNone))
  /\ (forall g p,
        get_game_path w = (t, Normal (VPath g)) ->
        get_web_cache_path w (VPath g) = ([], Normal (VPath p)) ->
        exists_ w (data_2 p) = false ->
        get_cache_path w
        = (t ++ [cache_path_log w (data_2 p);
                 Log DEBUG "cache file does not exist"],
           Normal VNone)).
Proof.
  split; [|split].
  - intros Hgame. by apply (get_cache_path_none w t VNone).
  - intros g Hgame Hkind Hnone.
    apply (get_cache_path_no_version w t g Hgame).
    unfold web_caches in Hkind. rewrite <- (joinpath_web_caches w g) in Hkind.
    rewrite (get_web_cache_path_dir w g Hkind), joinpath_web_caches.
    fold (web_caches g).
    by rewrite (version_dirs_nil w _ (web_caches_nonempty g) Hnone).
  - intros g p Hgame Hweb Hmissing.
    rewrite (get_cache_path_found w t g p Hgame Hweb), Hmissing.
    unfold after, cache_path_log. simpl. by rewrite <- app_assoc.
Qed.

Lemma cache_soft_misses_witness :
  get_cache_path
    (machine "linux" {[ "GAME_PATH" := "/games/hsr" ]}
       [hsr_dir; hsr_web_caches] [] [] None)
  = ([no_web_cache_log], Normal VNone).
Proof.
  set (w := machine _ _ _ _ _ _).
  destruct (cache_soft_misses w []) as (_ & Hempty & _).
  apply (Hempty hsr_dir); [reflexivity..|].
  intros n Hn. by apply elem_of_nil in Hn.
Defined.

(** X7. Off Windows, when the newest version directory holds the cache
    file, [get_cache_path] returns
    [<version directory>/Cache/Cache_Data/data_2] itself: nothing is copied,
    no directory is created, and the one log entry is at debug level. *)
Theorem cache_file_returned_in_place
    (w : World) (t : list event) (g p : Path) :
  platform w <> "win32" ->
  get_game_path w = (t, Normal (VPath g)) ->
  get_web_cache_path w (VPath g) = ([], Normal (VPath p)) ->
  exists_ w (data_2 p) = true ->
  get_cache_path w = (t ++ [cache_path_log w (data_2 p)], Normal (VPath (data_2 p))).
Proof.
  intros Hplat Hgame Hweb Hex.
  rewrite (get_cache_path_found w t g p Hgame Hweb), Hex.
  apply String.eqb_neq in Hplat. rewrite Hplat.
  unfold after, cache_path_log. simpl. by rewrite app_nil_r.
Qed.

Lemma cache_file_returned_in_place_witness :
  get_cache_path linux_with_cache
  = ([Log DEBUG "cache path is: /games/hsr/StarRail_Data/webCaches/2.27.0.0/Cache/Cache_Data/data_2"],
     Normal (VPath (data_2 (hsr_web_caches ++ ["2.27.0.0"])))).
Proof.
  apply (cache_file_returned_in_place linux_with_cache [] hsr_dir
           (hsr_web_caches ++ ["2.27.0.0"])).
  - done.
  - reflexivity.
  - by vm_compute.
  - reflexivity.
Defined.

(** What [get_cache_path] does on Windows once the cache file is found. *)
Lemma get_cache_path_windows (w : World) (t : list event) (g p : Path) :
  platform w = "win32" ->
  get_game_path w = (t, Normal (VPath g)) ->
  get_web_cache_path w (VPath g) = ([], Normal (VPath p)) ->
  exists_ w (data_2 p) = true ->
  get_cache_path w =
    after (t ++ [cache_path_log w (data_2 p)])
      (call (
         try_except
           (data_path <- get_data_path w ;;
            copy_path <- truediv w data_path "data_2" ;;
            check_output w
              ("powershell.exe -Command " +:+ String Str.dquote
                 ("Copy-Item '" +:+ path_str w (data_2 p) +:+ "' '"
                  +:+ path_str w copy_path +:+ "'"
                  +:+ String Str.dquote "")) ;;
            return_ (VPath copy_path))
           [FileNotFoundError; CalledProcessError; OSError]
           (emit (Log ERROR "Could not create copy of cache file") ;;
            return_ VNone)))%comp.
Proof.
  intros Hplat Hgame Hweb Hex.
  rewrite (get_cache_path_found w t g p Hgame Hweb), Hex, Hplat.
  change (when (negb true) _) with (ret tt). by rewrite bind_ret.
Qed.

Lemma joinpath_data_2 (w : World) (d : Path) :
  joinpath w d "data_2" = d ++ ["data_2"].
Proof.
  unfold joinpath, path_of, is_sep.
  by destruct (String.eqb (platform w) "win32").
Qed.

Arguments caught_by : simpl never.

(** X8. On Windows the cache file is copied aside with PowerShell's
    [Copy-Item] to [data_2] in the data directory.  When the shell call
    succeeds the copy is returned; when it raises an [OSError] (of any
    subclass) or a [CalledProcessError] the failure is logged at error level
    and [None] is returned. *)
Theorem cache_file_copied_on_windows
    (w : World) (t td : list event) (g p d : Path) :
  platform w = "win32" ->
  get_game_path w = (t, Normal (VPath g)) ->
  get_web_cache_path w (VPath g) = ([], Normal (VPath p)) ->
  exists_ w (data_2 p) = true ->
  get_data_path w = (td, Normal (VPath d)) ->
  let cmd := copy_command w (data_2 p) (d ++ ["data_2"]) in
  (shell_fails w cmd = None ->
   get_cache_path w
   = (t ++ [cache_path_log w (data_2 p)] ++ td ++ [Shell cmd],
      Normal (VPath (d ++ ["data_2"]))))
  /\ (forall c, shell_fails w cmd = Some c ->
        issubclass c OSError = true \/ c = CalledProcessError ->
        get_cache_path w
        = (t ++ [cache_path_log w (data_2 p)] ++ td
             ++ [Shell cmd; copy_failed_log],
           Normal VNone)).
Proof.
  intros Hplat Hgame Hweb Hex Hdata cmd.
  rewrite (get_cache_path_windows w t g p Hplat Hgame Hweb Hex).
  rewrite Hdata, bind_normal. cbn [truediv].
  rewrite bind_ret, joinpath_data_2. fold (copy_command w (data_2 p) (d ++ ["data_2"])).
  fold cmd. unfold check_output, emit. rewrite bind_normal.
  split.
  - intros ->. unfold after. simpl. by rewrite <- !app_assoc.
  - intros c -> Hc.
    assert (Hcaught : caught_by [FileNotFoundError; CalledProcessError; OSError]
                        (raised c) = true).
    { unfold caught_by. simpl.
      destruct Hc as [-> | ->]; [by rewrite !orb_true_r | done]. }
    unfold after, try_except, raise. simpl. rewrite Hcaught.
    unfold after. simpl. by rewrite <- !app_assoc.
Qed.

Lemma cache_file_copied_on_windows_witness :
  (get_cache_path (windows_with_cache windows_env None)).2
  = Normal (VPath ["C:"; "Roaming"; "warp-journal"; "data_2"])
  /\ (get_cache_path
        (windows_with_cache windows_env (Some PermissionError))).2
     = Normal VNone.
Proof.
  split.
  - set (w := windows_with_cache windows_env None).
    destruct (cache_file_copied_on_windows w [] [] hsr_dir
                (hsr_web_caches ++ ["2.27.0.0"])
                ["C:"; "Roaming"; "warp-journal"]) as [Hok _];
      [reflexivity | reflexivity | by vm_compute | reflexivity
      | by vm_compute |].
    by rewrite Hok.
  - set (w := windows_with_cache windows_env (Some PermissionError)).
    destruct (cache_file_copied_on_windows w [] [] hsr_dir
                (hsr_web_caches ++ ["2.27.0.0"])
                ["C:"; "Roaming"; "warp-journal"]) as [_ Hfail];
      [reflexivity | reflexivity | by vm_compute | reflexivity
      | by vm_compute |].
    rewrite (Hfail PermissionError); [done | done | by left].
Defined.

(** X9. During the Windows copy an error of [get_data_path] is treated by
    its class: an [OSError] (a parent of the data directory is a file) is
    logged as a failed copy and gives [None], but the exit of a fatal error
    and the [KeyError] of a missing [APPDATA] pass through the [except]
    clause and end [get_cache_path]. *)
Theorem copy_does_not_soften_fatal_errors
    (w : World) (t td : list event) (g p : Path) (e : exn) :
  platform w = "win32" ->
  get_game_path w = (t, Normal (VPath g)) ->
  get_web_cache_path w (VPath g) = ([], Normal (VPath p)) ->
  exists_ w (data_2 p) = true ->
  get_data_path w = (td, Raise e) ->
  (exn_type e = SystemExit \/ exn_type e = KeyError ->
   get_cache_path w = (t ++ [cache_path_log w (data_2 p)] ++ td, Raise e))
  /\ (issubclass (exn_type e) OSError = true ->
      get_cache_path w
      = (t ++ [cache_path_log w (data_2 p)] ++ td ++ [copy_failed_log],
         Normal VNone)).
Proof.
  intros Hplat Hgame Hweb Hex Hdata.
  rewrite (get_cache_path_windows w t g p Hplat Hgame Hweb Hex).
  rewrite Hdata, bind_raise. unfold try_except.
  split.
  - intros He.
    assert (Hcaught : caught_by [FileNotFoundError; CalledProcessError; OSError]
                        e = false).
    { unfold caught_by. by destruct He as [-> | ->]. }
    rewrite Hcaught. unfold after. simpl. by rewrite <- !app_assoc.
  - intros He.
    assert (Hcaught : caught_by [FileNotFoundError; CalledProcessError; OSError]
                        e = true).
    { unfold caught_by. simpl. by rewrite He, !orb_true_r. }
    rewrite Hcaught. unfold after. simpl. by rewrite <- !app_assoc.
Qed.

Lemma copy_does_not_soften_fatal_errors_witness :
  get_cache_path
    (windows_with_cache {[ "GAME_PATH" := "/games/hsr" ]} None)
  = ([cache_path_log (windows_with_cache {[ "GAME_PATH" := "/games/hsr" ]} None)
        (data_2 (hsr_web_caches ++ ["2.27.0.0"]))],
     Raise (raised KeyError)).
Proof.
  set (w := windows_with_cache _ None).
  destruct (copy_does_not_soften_fatal_errors w [] [] hsr_dir
              (hsr_web_caches ++ ["2.27.0.0"]) (raised KeyError))
    as [Hpass _];
    [reflexivity | reflexivity | by vm_compute | reflexivity
    | by vm_compute |].
  by rewrite Hpass; [|right].
Defined.

(** X10. Off Windows a path returned by [get_cache_path] exists on disk and
    has the shape
    [<game>/StarRail_Data/webCaches/<version>/Cache/Cache_Data/data_2], where
    [<version>] is a listed directory with a dot in its name; every other
    return value is [None]. *)
Theorem cache_path_exists_when_returned
    (w : World) (t : list event) (v : value) :
  platform w <> "win32" ->
  get_cache_path w = (t, Normal v) ->
  v = VNone
  \/ exists g n,
       v = VPath (data_2 (web_caches g ++ [n]))
       /\ exists_ w (data_2 (web_caches g ++ [n])) = true
       /\ n ∈ listdir w (web_caches g)
       /\ is_dir w (web_caches g ++ [n]) = true
       /\ Str.contains "." n = true.
Proof.
  intros Hplat Hrun.
  destruct (get_game_path_cases w) as [(t0 & v0 & Hgame)|(t0 & e & Hgame)];
    [|by rewrite (get_cache_path_game_raises w t0 e Hgame) in Hrun].
  destruct (truthy v0) eqn:Htruthy;
    [|rewrite (get_cache_path_none w t0 v0 Hgame Htruthy) in Hrun;
      injection Hrun as <- <-; by left].
  assert (Hpath : (exists g, v0 = VPath g) \/ forall g, v0 <> VPath g).
  { destruct v0; eauto. }
  destruct Hpath as [[g ->]|Hnot].
  2: { rewrite (get_cache_path_web_raises w t0 v0 _ Hgame Htruthy
                  (get_web_cache_path_not_path w v0 Hnot)) in Hrun.
       discriminate Hrun. }
  destruct (kind_of w (web_caches g)) as [[|]|] eqn:Hkind.
  - by rewrite (get_cache_path_raises w t0 g _ Hgame
                  (get_web_cache_path_file w g Hkind)) in Hrun.
  - pose proof Hkind as Hkind'.
    unfold web_caches in Hkind'. rewrite <- (joinpath_web_caches w g) in Hkind'.
    pose proof (get_web_cache_path_dir w g Hkind') as Hweb.
    rewrite joinpath_web_caches in Hweb. fold (web_caches g) in Hweb.
    destruct (last (sort_by version_key (version_dirs w (web_caches g))))
      as [p|] eqn:Hlast.
    + apply sort_by_last in Hlast as [Hp _].
      apply elem_of_version_dirs in Hp as (n & -> & Hn & Hd & Hc);
        [|apply web_caches_nonempty].
      rewrite (get_cache_path_found w t0 g _ Hgame Hweb) in Hrun.
      destruct (exists_ w (data_2 (web_caches g ++ [n]))) eqn:Hex.
      * apply String.eqb_neq in Hplat. rewrite Hplat in Hrun.
        injection Hrun as <- <-. right. by exists g, n.
      * injection Hrun as <- <-. by left.
    + rewrite (get_cache_path_no_version w t0 g Hgame Hweb) in Hrun.
      injection Hrun as <- <-. by left.
  - by rewrite (get_cache_path_raises w t0 g _ Hgame
                  (get_web_cache_path_missing w g Hkind)) in Hrun.
Qed.

Lemma cache_path_exists_when_returned_witness :
  exists_ linux_with_cache (data_2 (hsr_web_caches ++ ["2.27.0.0"])) = true.
Proof.
  assert (Hrun : get_cache_path linux_with_cache
                 = ([cache_path_log linux_with_cache
                       (data_2 (hsr_web_caches ++ ["2.27.0.0"]))],
                    Normal (VPath (data_2 (hsr_web_caches ++ ["2.27.0.0"])))))
    by by vm_compute.
  destruct (cache_path_exists_when_returned linux_with_cache _ _
              ltac:(done) Hrun) as [Hnone|(g & n & Hv & Hex & _)];
    [discriminate Hnone|].
  assert (Heq : data_2 (hsr_web_caches ++ ["2.27.0.0"])
                = data_2 (web_caches g ++ [n])) by congruence.
  rewrite Heq. exact Hex.
Defined.

(** ** The game directory: platforms, errors, the greedy group *)

Lemma getitem_cases (j : json) (k : string) :
  (exists x, getitem j k = ([], Normal x))
  \/ (exists c, getitem j k = ([], Raise (raised c))).
Proof.
  destruct j; simpl; try (right; by eexists).
  destruct (List.find _ _); [left|right]; by eexists.
Qed.

Lemma getitem3_cases (j : json) (a b c : string) :
  (exists x, getitem3 j a b c = ([], Normal x))
  \/ (exists cls, getitem3 j a b c = ([], Raise (raised cls))).
Proof.
  unfold getitem3.
  destruct (getitem_cases j a) as [[x ->]|[cls ->]]; [|right; by eexists].
  rewrite bind_normal, after_nil.
  destruct (getitem_cases x b) as [[y ->]|[cls ->]]; [|right; by eexists].
  rewrite bind_normal, after_nil. apply getitem_cases.
Qed.

(** X11. Without an override, on a platform that is neither Windows nor
    Linux (macOS included), [get_game_path] returns [None] at once: no file
    is read and nothing is logged. *)
Theorem no_game_lookup_elsewhere (w : World) :
  environ w !! "GAME_PATH" = None ->
  platform w <> "win32" -> platform w <> "linux" ->
  get_game_path w = ([], Normal VNone)
  /\ get_cache_path w = ([], Normal VNone).
Proof.
  intros Henv H1 H2.
  assert (Hgame : get_game_path w = ([], Normal VNone)).
  { unfold get_game_path, in_environ. rewrite Henv.
    apply String.eqb_neq in H1, H2. by rewrite H1, H2. }
  split; [done|]. by apply (get_cache_path_none w [] VNone).
Qed.

Lemma no_game_lookup_elsewhere_witness :
  get_game_path (machine "darwin" ∅ [] [] sample_log (Some both_regions))
  = ([], Normal VNone).
Proof.
  by destruct (no_game_lookup_elsewhere
                 (machine "darwin" ∅ [] [] sample_log (Some both_regions))
                 ltac:(done) ltac:(done) ltac:(done)) as [Hgame _].
Defined.

(** X12. Whatever the Linux lookup returns is [None] or a [Path] that
    exists on disk; it never returns a [str]. *)
Theorem linux_game_path_exists (w : World) (t : list event) (v : value) :
  get_game_path_linux w = (t, Normal v) ->
  v = VNone \/ exists p, v = VPath p /\ exists_ w p = true.
Proof.
  intros Hrun.
  destruct (home w) as [h|] eqn:Hhome.
  2: { unfold get_game_path_linux in Hrun.
       rewrite path_of_launcher_config in Hrun. unfold expanduser in Hrun.
       by rewrite Hhome in Hrun. }
  destruct (kind_of w (launcher_config w h)) as [[|]|] eqn:Hkind.
  - destruct (json_of w (launcher_config w h)) as [config|] eqn:Hjson.
    + rewrite (get_game_path_linux_eq w h config Hhome Hkind Hjson) in Hrun.
      unfold region_path in Hrun.
      destruct (getitem3_cases config "game" "path" "global")
        as [[glob Hg]|[cls Hg]]; rewrite Hg in Hrun.
      2: { rewrite bind_raise in Hrun. unfold try_except in Hrun.
           destruct (caught_by [KeyError] (raised cls));
             [|discriminate Hrun].
           injection Hrun as <- <-. by left. }
      rewrite bind_normal, after_nil in Hrun.
      destruct glob as [| | |g| |]; try discriminate Hrun.
      simpl Path_of_json in Hrun. rewrite bind_ret in Hrun.
      destruct (exists_ w (path_of w g)) eqn:Hex.
      { injection Hrun as <- <-. right. by eexists. }
      change (when false _) with (ret tt) in Hrun. rewrite bind_ret in Hrun.
      destruct (getitem3_cases config "game" "path" "china")
        as [[china Hc]|[cls Hc]]; rewrite Hc in Hrun.
      2: { rewrite bind_raise in Hrun. unfold try_except in Hrun.
           destruct (caught_by [KeyError] (raised cls));
             [|discriminate Hrun].
           injection Hrun as <- <-. by left. }
      rewrite bind_normal, after_nil in Hrun.
      destruct china as [| | |c| |]; try discriminate Hrun.
      simpl Path_of_json in Hrun. rewrite bind_ret in Hrun.
      destruct (exists_ w (path_of w c)) eqn:Hex'.
      { injection Hrun as <- <-. right. by eexists. }
      injection Hrun as <- <-. by left.
    + unfold get_game_path_linux in Hrun.
      rewrite path_of_launcher_config in Hrun. unfold expanduser in Hrun.
      rewrite Hhome, bind_ret in Hrun.
      change (path_of w h ++ _) with (launcher_config w h) in Hrun.
      unfold exists_ at 1 in Hrun. rewrite Hkind in Hrun.
      change (when (negb true) _) with (ret tt) in Hrun.
      rewrite bind_ret in Hrun. unfold with_, open_, json_load in Hrun.
      by rewrite Hkind, bind_ret, Hjson in Hrun.
  - unfold get_game_path_linux in Hrun.
    rewrite path_of_launcher_config in Hrun. unfold expanduser in Hrun.
    rewrite Hhome, bind_ret in Hrun.
    change (path_of w h ++ _) with (launcher_config w h) in Hrun.
    unfold exists_ at 1 in Hrun. rewrite Hkind in Hrun.
    change (when (negb true) _) with (ret tt) in Hrun.
    rewrite bind_ret in Hrun. unfold with_, open_ in Hrun.
    by rewrite Hkind in Hrun.
  - rewrite (get_game_path_linux_absent w h Hhome Hkind) in Hrun.
    injection Hrun as <- <-. by left.
Qed.

Lemma linux_game_path_exists_witness :
  exists_ china_only ["/"; "games"; "hsr-china"] = true.
Proof.
  assert (Hrun : get_game_path_linux china_only
                 = ([], Normal (VPath ["/"; "games"; "hsr-china"])))
    by by vm_compute.
  destruct (linux_game_path_exists china_only _ _ Hrun)
    as [Hnone|(p & Hv & Hex)]; [discriminate Hnone|].
  injection Hv as <-. exact Hex.
Defined.

(** X13. Only a missing key is a soft miss of the Linux lookup.  A
    configuration that is not JSON, a value on the way to the path that is
    not an object, and a path that is not a string end the lookup with
    [JSONDecodeError] or [TypeError], unlogged. *)
Theorem launcher_config_errors_propagate (w : World) (h : string) :
  home w = Some h ->
  kind_of w (launcher_config w h) = Some KFile ->
  (json_of w (launcher_config w h) = None ->
   get_game_path_linux w = ([], Raise (raised JSONDecodeError)))
  /\ (forall config,
        json_of w (launcher_config w h) = Some config ->
        (region_path config "global" = raise TypeError ->
         get_game_path_linux w = ([], Raise (raised TypeError)))
        /\ (forall glob,
              region_path config "global" = ret glob ->
              (forall s, glob <> JStr s) ->
              get_game_path_linux w = ([], Raise (raised TypeError)))).
Proof.
  intros Hhome Hkind. split.
  - intros Hjson. unfold get_game_path_linux.
    rewrite path_of_launcher_config. unfold expanduser.
    rewrite Hhome, bind_ret.
    change (path_of w h ++ _) with (launcher_config w h).
    unfold exists_ at 1. rewrite Hkind.
    change (when (negb true) _) with (ret tt).
    rewrite bind_ret. unfold with_, open_, json_load.
    by rewrite Hkind, bind_ret, Hjson.
  - intros config Hjson.
    rewrite (get_game_path_linux_eq w h config Hhome Hkind Hjson).
    split; [by intros ->|].
    intros glob -> Hglob. rewrite bind_ret.
    destruct glob; try done. by destruct (Hglob s).
Qed.

Lemma launcher_config_errors_propagate_witness :
  get_game_path_linux
    (machine "linux" ∅ [] [config_json] []
       (Some (JObj [("game", JArr [JStr "/games/hsr"])])))
  = ([], Raise (raised TypeError)).
Proof.
  set (w := machine _ _ _ _ _ _).
  destruct (launcher_config_errors_propagate w "/home/trailblazer"
              eq_refl eq_refl) as [_ Hconfig].
  destruct (Hconfig (JObj [("game", JArr [JStr "/games/hsr"])]) eq_refl)
    as [Htype _].
  by apply Htype.
Defined.

Section Greedy.

Lemma match_group_longest (p : list Re.atom) (s g g' rest : string) :
  Re.match_group p s = Some g ->
  s = g' +:+ rest ->
  g' <> EmptyString -> Str.contains Str.newline g' = false ->
  is_Some (Re.match_atoms p rest) ->
  (String.length g' <= String.length g)%nat.
Proof.
  intros Hg -> Hne Hnl Hrest.
  destruct (match_group_complete p g' rest Hne Hnl Hrest) as (g'' & Hg' & Hlen).
  congruence.
Qed.

End Greedy.

(** X14. The group of the log pattern is greedy: in a line that starts
    with the prefix, no path followed by the marker is longer than the
    captured group, so with two markers in a line the group runs up to the
    last one. *)
Theorem log_group_is_greedy (g g' rest : string) :
  Re.match_here log_regex
    ("Loading player data from " +:+ g' +:+ "/StarRail_Data/data.unity3d"
     +:+ rest) = Some g ->
  g' <> EmptyString -> Str.contains Str.newline g' = false ->
  (String.length g' <= String.length g)%nat.
Proof.
  intros Hm Hne Hnl. unfold Re.match_here in Hm.
  change (Re.prefix log_regex)
    with (Re.atoms "Loading player data from ") in Hm.
  change (Re.suffix log_regex)
    with (Re.atoms "/StarRail_Data/data.unity3d") in Hm.
  destruct (match_atoms_literal_complete "Loading player data from "
              (g' +:+ "/StarRail_Data/data.unity3d" +:+ rest))
    as [Hpre|?]; [|done].
  rewrite Hpre in Hm.
  apply (match_group_longest _ _ g g' _ Hm eq_refl Hne Hnl).
  by destruct (match_atoms_literal_complete "/StarRail_Data/data.unity3d" rest)
    as [->|?].
Qed.

Lemma log_group_is_greedy_witness :
  Re.search log_regex two_markers
  = Some "/a/StarRail_Data/data.unity3d then /b"
  /\ (String.length "/a" <= String.length "/a/StarRail_Data/data.unity3d then /b")%nat.
Proof.
  split; [by vm_compute|].
  apply (log_group_is_greedy _ "/a"
           (" then /b/StarRail_Data/data.unity3d" +:+ String Str.newline ""));
    [by vm_compute | done | done].
Defined.

(** ** The port scan: what is returned, what escapes, what is probed *)

Lemma candidate_split (pre post : list Z) (p : Z) :
  candidate_ports = pre ++ p :: post ->
  6193 <= p <= 6202 /\ forall q, 6193 <= q < p -> q ∈ pre.
Proof.
  rewrite candidate_ports_eq. intros H.
  do 10 (destruct pre as [|? pre];
         [injection H as <- <-; split; [lia|];
          intros q Hq; rewrite ?elem_of_cons, elem_of_nil; lia|];
         injection H as <- H).
  by destruct pre.
Qed.

Lemma elem_of_attempts (ev : event) (l : list Z) :
  ev ∈ attempts l <->
  exists q, q ∈ l /\ (ev = Bind "localhost" q
                      \/ ev = UrlOpen (probe_url q) (1 # 10)).
Proof.
  induction l as [|x l IH].
  - split; [by intros ?%elem_of_nil | by intros (? & ?%elem_of_nil & _)].
  - change (attempts (x :: l)) with (attempt x ++ attempts l).
    rewrite elem_of_app, IH. unfold attempt. rewrite !elem_of_cons.
    split.
    + intros [[->|[->|?%elem_of_nil]]|(q & Hq & Hev)]; try done.
      * exists x. split; [by left|by left].
      * exists x. split; [by left|by right].
      * exists q. split; [by right|done].
    + intros (q & [->|Hq]%elem_of_cons & Hev).
      * left. destruct Hev as [->| ->]; auto.
      * right. by exists q.
Qed.

(** X15. A value returned by [get_usable_port] is one of the ports 6193 to
    6202; that port is free, or occupied and answering the probe; and every
    smaller candidate is occupied by a listener whose probe failed.  In
    particular the function never returns [None]. *)
Theorem usable_port_is_first_usable (w : World) (t : list event) (v : value) :
  get_usable_port w = (t, Normal v) ->
  exists p,
    v = VInt p /\ 6193 <= p <= 6202
    /\ (bind_fails w "localhost" p = false
        \/ (bind_fails w "localhost" p = true
            /\ http_get w (probe_url p) = None))
    /\ forall q, 6193 <= q < p -> foreign w q.
Proof.
  intros Hrun.
  destruct (for_ candidate_ports (try_port w)) as [t0 c0] eqn:Hfor.
  rewrite (get_usable_port_of_scan w _ _ Hfor) in Hrun.
  pose proof (for_try_port_end w candidate_ports) as Hend.
  rewrite Hfor in Hend.
  inversion Hend as [Hall|pre p post Hsplit Hpre Hp|pre p post Hsplit Hpre Hp Hg
                    |pre p post c Hsplit Hpre Hp Hg Hc]; subst; try done.
  - injection Hrun as <- <-. exists p.
    destruct (candidate_split pre post p Hsplit) as [Hrange Hbefore].
    split; [done|]. split; [lia|]. split; [by left|].
    intros q Hq. rewrite Forall_forall in Hpre. by apply Hpre, Hbefore.
  - injection Hrun as <- <-. exists p.
    destruct (candidate_split pre post p Hsplit) as [Hrange Hbefore].
    split; [done|]. split; [lia|]. split; [by right|].
    intros q Hq. rewrite Forall_forall in Hpre. by apply Hpre, Hbefore.
Qed.

Lemma usable_port_is_first_usable_witness :
  exists p, VInt 6197 = VInt p /\ 6193 <= p <= 6202
            /\ forall q, 6193 <= q < p -> foreign four_foreign q.
Proof.
  assert (Hrun : get_usable_port four_foreign
                 = (attempts [6193; 6194; 6195; 6196] ++ [Bind "localhost" 6197],
                    Normal (VInt 6197))) by by vm_compute.
  destruct (usable_port_is_first_usable four_foreign _ _ Hrun)
    as (p & Hv & Hrange & _ & Hbefore).
  by exists p.
Defined.

(** X16. A probe that ends in an exception other than [URLError] and
    [HTTPError], such as the [TimeoutError] of a listener that accepts the
    connection and stays silent, is not handled: the exception leaves
    [get_usable_port], the later candidates are not tried, nothing is logged
    and the process does not exit through [panic]. *)
Theorem unhandled_probe_error_escapes
    (w : World) (pre post : list Z) (p : Z) (c : exn_class) :
  candidate_ports = pre ++ p :: post ->
  Forall (foreign w) pre ->
  bind_fails w "localhost" p = true ->
  http_get w (probe_url p) = Some c ->
  c <> URLError -> c <> HTTPError ->
  get_usable_port w = (attempts pre ++ attempt p, Raise (raised c)).
Proof.
  intros Hsplit Hpre Hb Hg H1 H2.
  assert (Hc : caught_by [URLError; HTTPError] (raised c) = false).
  { destruct (caught_by [URLError; HTTPError] (raised c)) eqn:E; [|done].
    apply caught_url_errors in E as [?|?]; contradiction. }
  apply (get_usable_port_of_scan w _ (Raise (raised c))).
  rewrite Hsplit, (for_try_port_foreign w pre _ Hpre). simpl for_.
  by rewrite (try_port_raised w p c Hb Hg), Hc.
Qed.

Lemma unhandled_probe_error_escapes_witness :
  get_usable_port silent_listener
  = (attempt 6193, Raise (raised TimeoutError)).
Proof.
  apply (unhandled_probe_error_escapes silent_listener []
           [6194; 6195; 6196; 6197; 6198; 6199; 6200; 6201; 6202]
           6193 TimeoutError); try done; by vm_compute.
Defined.

Lemma scan_end_events (w : World) (l : list Z) (r : comp unit) (ev : event) :
  scan_end w l r -> ev ∈ r.1 ->
  exists q, q ∈ l
    /\ (ev = Bind "localhost" q
        \/ (ev = UrlOpen (probe_url q) (1 # 10)
            /\ bind_fails w "localhost" q = true)).
Proof.
  assert (Hpre : forall pre, Forall (foreign w) pre -> ev ∈ attempts pre ->
            exists q, q ∈ pre
              /\ (ev = Bind "localhost" q
                  \/ (ev = UrlOpen (probe_url q) (1 # 10)
                      /\ bind_fails w "localhost" q = true))).
  { intros pre Hall (q & Hq & Hev)%elem_of_attempts. exists q. split; [done|].
    rewrite Forall_forall in Hall. destruct (Hall q Hq) as [Hb _].
    destruct Hev as [->| ->]; auto. }
  destruct 1 as [Hall|pre p post -> Hall Hp|pre p post -> Hall Hp Hg
                |pre p post c -> Hall Hp Hg Hc];
    cbn [fst]; rewrite ?elem_of_app.
  - by apply Hpre.
  - intros [Hev|Hev].
    + destruct (Hpre pre Hall Hev) as (q & Hq & Hq'). exists q.
      split; [set_solver|done].
    + apply list_elem_of_singleton in Hev as ->. exists p.
      split; [set_solver|by left].
  - intros [Hev|Hev].
    + destruct (Hpre pre Hall Hev) as (q & Hq & Hq'). exists q.
      split; [set_solver|done].
    + unfold attempt in Hev. rewrite !elem_of_cons, elem_of_nil in Hev.
      exists p. split; [set_solver|]. destruct Hev as [->|[->|[]]]; auto.
  - intros [Hev|Hev].
    + destruct (Hpre pre Hall Hev) as (q & Hq & Hq'). exists q.
      split; [set_solver|done].
    + unfold attempt in Hev. rewrite !elem_of_cons, elem_of_nil in Hev.
      exists p. split; [set_solver|]. destruct Hev as [->|[->|[]]]; auto.
Qed.

(** X17. [get_usable_port] binds and probes candidates only: every bind is
    on [localhost] at a port from 6193 to 6202 and every request goes, with a
    timeout of a tenth of a second, to the probe URL of such a port, and only
    of a port whose bind failed; a free port is never probed.  The only
    other events are those of the fatal error for an exhausted range. *)
Theorem only_occupied_candidates_are_probed (w : World) (ev : event) :
  ev ∈ (get_usable_port w).1 ->
  match ev with
  | Bind h p => h = "localhost" /\ 6193 <= p <= 6202
  | UrlOpen url tm =>
      tm = (1 # 10)%Q
      /\ exists p, url = probe_url p /\ 6193 <= p <= 6202
                   /\ bind_fails w "localhost" p = true
  | Log lvl msg =>
      msg = "No suitable port found." /\ lvl = ERROR
      \/ msg = "Quitting" /\ lvl = INFO
  | ErrorDialog msg => msg = "No suitable port found." /\ tkinter w = true
  | _ => False
  end.
Proof.
  intros Hev.
  destruct (for_ candidate_ports (try_port w)) as [t0 c0] eqn:Hfor.
  rewrite (get_usable_port_of_scan w _ _ Hfor) in Hev.
  pose proof (for_try_port_end w candidate_ports) as Hend.
  rewrite Hfor in Hend.
  assert (Hin : forall q, q ∈ candidate_ports -> 6193 <= q <= 6202).
  { intros q. rewrite candidate_ports_eq, !elem_of_cons, elem_of_nil. lia. }
  assert (Hcases : ev ∈ t0 \/ ev ∈ (panic w "No suitable port found.").1).
  { destruct c0; cbn [fst] in Hev; rewrite ?elem_of_app in Hev; tauto. }
  destruct Hcases as [Hscan|Hpanic].
  - destruct (scan_end_events w _ _ ev Hend Hscan) as (q & Hq & [->|[-> Hb]]).
    + split; [done|]. by apply Hin.
    + split; [done|]. exists q. split; [done|]. split; [by apply Hin|done].
  - rewrite panic_eq in Hpanic. cbn [fst] in Hpanic.
    destruct (tkinter w) eqn:Htk; cbn [app] in Hpanic;
      rewrite !elem_of_cons, elem_of_nil in Hpanic.
    + destruct Hpanic as [->|[->|[->|[]]]]; auto.
    + destruct Hpanic as [->|[->|[]]]; auto.
Qed.

Lemma only_occupied_candidates_are_probed_witness :
  exists p, probe_url 6194 = probe_url p /\ 6193 <= p <= 6202
            /\ bind_fails second_instance "localhost" p = true.
Proof.
  assert (Hev : UrlOpen (probe_url 6194) (1 # 10)
                ∈ (get_usable_port second_instance).1).
  { apply list_elem_of_In. vm_compute. tauto. }
  by destruct (only_occupied_candidates_are_probed second_instance _ Hev)
    as [_ Hp].
Defined.
